(** * Icon-theme stylesheet synthesis, label-provider aggregation and the
      install button: a shallow embedding of

      - [packages/plugin-ext/src/main/browser/plugin-icon-theme-service.ts]
      - [packages/core/src/browser/label-provider.ts]
      - [packages/vscode-extensions/src/browser/view/vscx-install-button-component.tsx]

    JavaScript strings are embedded as [string], one [ascii] per code unit,
    for the strings whose code units are below 256 (ISO 8859-1),
    optional properties as [option], objects traversed with [for ... in] as
    association lists in iteration order, and objects that are only indexed
    (the [iconDefinitions] table) as [gmap string _] for their own properties,
    with the inherited ones beside.  Mutation of the
    [definitionSelectors] map, of the style sheet and of the extension object
    is written as explicit state passing. *)

From Stdlib Require Import ZArith Ascii String List Sorted Permutation Lia.
From stdpp Require Import base strings gmap list sorting.

Local Open Scope Z_scope.

(** ** JavaScript string primitives used by the sources *)

Module Js.

(** [A-Z] *)
Definition is_upper (c : ascii) : bool :=
  ((65 <=? Z.of_nat (nat_of_ascii c)) && (Z.of_nat (nat_of_ascii c) <=? 90))%bool.

(** The other code units below 256 that have a lower-case form: U+00C0 to
    U+00DE without the multiplication sign U+00D7. *)
Definition is_upper_latin1 (c : ascii) : bool :=
  ((192 <=? Z.of_nat (nat_of_ascii c)) && (Z.of_nat (nat_of_ascii c) <=? 222)
   && negb (Z.of_nat (nat_of_ascii c) =? 215))%bool.

(** The lower-case form of a cased code unit is 32 above it. *)
Definition lower_char (c : ascii) : ascii :=
  if (is_upper c || is_upper_latin1 c)%bool then ascii_of_nat (nat_of_ascii c + 32)
  else c.

(** [String.prototype.toLowerCase] on code units below 256. *)
Fixpoint toLowerCase (s : string) : string :=
  match s with
  | EmptyString => EmptyString
  | String c s' => String (lower_char c) (toLowerCase s')
  end.

(** [s.indexOf(c)] for a one-character needle: the position of the first
    occurrence, or [-1]. *)
Fixpoint indexOf_from (c : ascii) (s : string) (i : Z) : Z :=
  match s with
  | EmptyString => -1
  | String d s' => if Ascii.eqb d c then i else indexOf_from c s' (i + 1)
  end.

Definition indexOf (c : ascii) (s : string) : Z := indexOf_from c s 0.

Fixpoint drop_chars (n : nat) (s : string) : string :=
  match n, s with
  | O, _ => s
  | S _, EmptyString => EmptyString
  | S n', String _ s' => drop_chars n' s'
  end.

(** [s.substr(start)] with a non-negative [start]. *)
Definition substr (s : string) (start : Z) : string :=
  drop_chars (Z.to_nat start) s.

(** [s.split(sep)] for a one-character separator; never the empty array. *)
Fixpoint split (sep : ascii) (s : string) : list string :=
  match s with
  | EmptyString => [EmptyString]
  | String c s' =>
      if Ascii.eqb c sep then EmptyString :: split sep s'
      else match split sep s' with
           | [] => [String c EmptyString]
           | seg :: rest => String c seg :: rest
           end
  end.

(** [xs.join(sep)]. *)
Fixpoint join (sep : string) (xs : list string) : string :=
  match xs with
  | [] => EmptyString
  | [x] => x
  | x :: rest => x +:+ sep +:+ join sep rest
  end.

(** [xs.slice(i)]. *)
Definition slice {A} (i : nat) (xs : list A) : list A := drop i xs.

(** [xs.reduce(f, init)]. *)
Definition reduce {A B} (f : B -> A -> B) (init : B) (xs : list A) : B :=
  fold_left f xs init.

(** Truthiness of an optional string: [undefined] and [''] are falsy. *)
Definition truthy (v : option string) : bool :=
  match v with
  | Some s => negb (String.eqb s EmptyString)
  | None => false
  end.

(** [a || b] on optional strings. *)
Definition or_else (a b : option string) : option string :=
  if truthy a then a else b.

(** How a template literal prints an optional string. *)
Definition show (v : option string) : string :=
  match v with
  | Some s => s
  | None => "undefined"
  end.

(** [for (let i = from; i < to; i++) body(i)], threading the loop state. *)
Fixpoint for_loop {St} (fuel : nat) (i : nat) (body : nat -> St -> St) (s : St) : St :=
  match fuel with
  | O => s
  | S fuel' => for_loop fuel' (S i) body (body i s)
  end.

Definition for_range {St} (from to : nat) (body : nat -> St -> St) (s : St) : St :=
  for_loop (to - from)%nat from body s.

(** [for (const k in o) body(k, o[k])] over an object given by its
    properties in iteration order. *)
Definition for_in {V St} (o : list (string * V)) (body : string -> V -> St -> St)
    (s : St) : St :=
  fold_left (fun acc kv => body (fst kv) (snd kv) acc) o s.

End Js.

(** ** The icon-theme document ([plugin-icon-theme-service.ts], lines 37-76) *)

Record PluginIconDefinition := {
  iconPath : option string;
  fontColor : option string;
  fontCharacter : option string;
  fontSize : option string;
  fontId : option string
}.

Record PluginFontSource := {
  src_path : option string;
  src_format : option string
}.

Record PluginFontDefinition := {
  font_id : option string;
  font_weight : option string;
  font_style : option string;
  font_size : option string;
  font_src : option (list (option PluginFontSource))
}.

Record PluginIconsAssociation := {
  folder : option string;
  file : option string;
  folderExpanded : option string;
  rootFolder : option string;
  rootFolderExpanded : option string;
  folderNames : option (list (string * string));
  folderNamesExpanded : option (list (string * string));
  fileExtensions : option (list (string * string));
  fileNames : option (list (string * string));
  languageIds : option (list (string * string))
}.

(** [PluginIconThemeDocument extends PluginIconsAssociation]; every property
    is optional in the parsed value ([RecursivePartial]). *)
Record PluginIconThemeDocument := {
  base : PluginIconsAssociation;
  iconDefinitions : option (gmap string PluginIconDefinition);
  fonts : option (list (option PluginFontDefinition));
  light : option PluginIconsAssociation;
  highContrast : option PluginIconsAssociation;
  hidesExplorerArrows : option bool
}.

Inductive ThemeType := Dark | Light | Hc.

Definition themeType_name (t : ThemeType) : string :=
  match t with
  | Dark => "dark"
  | Light => "light"
  | Hc => "hc"
  end.

(** An association object with no property set. *)
Definition no_associations : PluginIconsAssociation :=
  {| folder := None; file := None; folderExpanded := None; rootFolder := None;
     rootFolderExpanded := None; folderNames := None; folderNamesExpanded := None;
     fileExtensions := None; fileNames := None; languageIds := None |}.

(** ** CSS class names (lines 268-315) *)

Section ClassNames.

(** [CSS.escape] of the host browser; [None] where the call throws because
    the browser does not provide it. *)
Variable CSS_escape : string -> option string.

Definition is_digit (c : ascii) : bool :=
  ((48 <=? Z.of_nat (nat_of_ascii c)) && (Z.of_nat (nat_of_ascii c) <=? 57))%bool.

Definition is_alpha (c : ascii) : bool :=
  (((97 <=? Z.of_nat (nat_of_ascii c)) && (Z.of_nat (nat_of_ascii c) <=? 122))
   || Js.is_upper c)%bool.

Definition is_dash (c : ascii) : bool := Ascii.eqb c "-"%char.

(** [value.replace(/[^\-a-zA-Z0-9]/g, '-')] *)
Fixpoint replace_unsafe (value : string) : string :=
  match value with
  | EmptyString => EmptyString
  | String c rest =>
      String (if (is_dash c || is_alpha c || is_digit c)%bool then c else "-"%char)
             (replace_unsafe rest)
  end.

Definition escapeCSS (value : string) : string :=
  match CSS_escape value with
  | Some escaped => escaped
  | None =>
      let value := replace_unsafe value in
      match value with
      | String c _ =>
          if (is_digit c || is_dash c)%bool then "-" +:+ value else value
      | EmptyString => value
      end
  end.

Definition fileIcon : string := "theia-plugin-file-icon".
Definition folderIcon : string := "theia-plugin-folder-icon".
Definition folderExpandedIcon : string := "theia-plugin-folder-expanded-icon".
Definition rootFolderIcon : string := "theia-plugin-root-folder-icon".
Definition rootFolderExpandedIcon : string := "theia-plugin-root-folder-expanded-icon".

Definition folderNameIcon (folderName : string) : string :=
  "theia-plugin-" +:+ escapeCSS (Js.toLowerCase folderName) +:+ "-folder-name-icon".

Definition expandedFolderNameIcon (folderName : string) : string :=
  "theia-plugin-" +:+ escapeCSS (Js.toLowerCase folderName)
    +:+ "-expanded-folder-name-icon".

Definition fileExtensionIcon (fileExtension : string) : list string :=
  let icons := [] in
  let segments := Js.split "."%char fileExtension in
  if (0 <? length segments)%nat then
    let icons :=
      Js.for_range 0 (length segments)
        (fun i icons =>
           icons ++ ["theia-plugin-"
                       +:+ escapeCSS (Js.join "." (Js.slice i segments))
                       +:+ "-ext-file-icon"])
        icons in
    icons ++ ["theia-plugin-ext-file-icon"]
  else icons.

Definition fileNameIcon (fileName : string) : list string :=
  let fileName := Js.toLowerCase fileName in
  let extIndex := Js.indexOf "."%char fileName in
  let icons :=
    if negb (extIndex =? -1) then fileExtensionIcon (Js.substr fileName (extIndex + 1))
    else [] in
  ("theia-plugin-" +:+ escapeCSS fileName +:+ "-file-name-icon") :: icons.

Definition languageIcon (languageId : string) : string :=
  "theia-plugin-" +:+ escapeCSS languageId +:+ "-lang-file-icon".

End ClassNames.

(** A browser without [CSS.escape] (the [catch] branch of [escapeCSS]). *)
Definition no_CSS_escape : string -> option string := fun _ => None.

(** ** A JavaScript [Map<string, V>]: keys in insertion order *)

Module JsMap.

Fixpoint get {V} (k : string) (m : list (string * V)) : option V :=
  match m with
  | [] => None
  | (k', v) :: rest => if String.eqb k' k then Some v else get k rest
  end.

(** [m.set(k, v)]: an existing key keeps its position. *)
Fixpoint set {V} (k : string) (v : V) (m : list (string * V)) : list (string * V) :=
  match m with
  | [] => [(k, v)]
  | (k', v') :: rest =>
      if String.eqb k' k then (k, v) :: rest else (k', v') :: set k v rest
  end.

Definition keys {V} (m : list (string * V)) : list string := map fst m.

End JsMap.

(** ** Selector collection (lines 165-183 and 317-373) *)

Section Selectors.

Variable CSS_escape : string -> option string.

(** The names every object inherits from [Object.prototype] (ECMAScript,
    with Annex B); the parsed [iconDefinitions] is such an object. *)
Definition Object_prototype : list string :=
  ["constructor"; "__defineGetter__"; "__defineSetter__"; "hasOwnProperty";
   "__lookupGetter__"; "__lookupSetter__"; "isPrototypeOf"; "propertyIsEnumerable";
   "toString"; "valueOf"; "__proto__"; "toLocaleString"].

(** What an inherited property holds, seen as an icon definition: a function
    or the prototype itself, truthy and with none of the properties of an
    icon definition. *)
Definition inherited_property : PluginIconDefinition :=
  {| iconPath := None; fontColor := None; fontCharacter := None;
     fontSize := None; fontId := None |}.

(** [iconDefinitions[definitionId]]: an own property, else an inherited one,
    else [undefined]. *)
Definition index_iconDefinitions (iconDefinitions : gmap string PluginIconDefinition)
    (definitionId : string) : option PluginIconDefinition :=
  match iconDefinitions !! definitionId with
  | Some iconDefinition => Some iconDefinition
  | None =>
      if existsb (String.eqb definitionId) Object_prototype
      then Some inherited_property
      else None
  end.

(** The closure [acceptSelector] of [load]; the map it mutates is passed
    in and returned. *)
Definition acceptSelector (iconDefinitions : gmap string PluginIconDefinition)
    (themeType : ThemeType) (definitionId selector : string)
    (definitionSelectors : list (string * list string)) : list (string * list string) :=
  match index_iconDefinitions iconDefinitions definitionId with
  | None => definitionSelectors
  | Some _ =>
      let selectors := default [] (JsMap.get definitionId definitionSelectors) in
      let selector :=
        match themeType with
        | Dark => selector
        | _ => ".theia-" +:+ themeType_name themeType +:+ " " +:+ selector
        end in
      JsMap.set definitionId (selectors ++ [selector]) definitionSelectors
  end.

(** [if (v) { k(v) }] for an optional string [v]. *)
Definition when_truthy {St} (v : option string) (k : string -> St -> St) (s : St) : St :=
  match v with
  | Some d => if negb (String.eqb d EmptyString) then k d s else s
  | None => s
  end.

(** [if (o) { for (const key in o) body(key, o[key]) }] *)
Definition when_object {St} (o : option (list (string * string)))
    (body : string -> string -> St -> St) (s : St) : St :=
  match o with
  | Some props => Js.for_in props body s
  | None => s
  end.

(** The compound selector built by [classes.reduce((r, v) => r + '.' + v, '')]. *)
Definition dotted (classes : list string) : string :=
  Js.reduce (fun r v => r +:+ "." +:+ v) "" classes.

(** [collectSelectors(associations, accept)]: [accept] acts on a state [St]
    that is threaded through the calls in program order. *)
Definition collectSelectors {St} (associations : PluginIconsAssociation)
    (accept : string -> string -> St -> St) (s : St) : St :=
  let s := when_truthy (folder associations)
             (fun d => accept d ("." +:+ folderIcon)) s in
  let s := when_truthy (folderExpanded associations)
             (fun d => accept d ("." +:+ folderExpandedIcon)) s in
  let rootFolder := Js.or_else (rootFolder associations) (folder associations) in
  let s := when_truthy rootFolder
             (fun d => accept d ("." +:+ rootFolderIcon)) s in
  let rootFolderExpanded :=
    Js.or_else (rootFolderExpanded associations) (folderExpanded associations) in
  let s := when_truthy rootFolderExpanded
             (fun d => accept d ("." +:+ rootFolderExpandedIcon)) s in
  let s := when_truthy (file associations)
             (fun d => accept d ("." +:+ fileIcon)) s in
  let folderNames := folderNames associations in
  let s := when_object folderNames
             (fun folderName d =>
                accept d ("." +:+ folderNameIcon CSS_escape folderName
                            +:+ "." +:+ folderIcon)) s in
  let folderNamesExpanded := folderNamesExpanded associations in
  let s := when_object folderNamesExpanded
             (fun folderName d =>
                accept d ("." +:+ expandedFolderNameIcon CSS_escape folderName
                            +:+ "." +:+ folderExpandedIcon)) s in
  let fileNames := fileNames associations in
  let s := when_object fileNames
             (fun fileName d =>
                accept d (dotted (fileNameIcon CSS_escape fileName)
                            +:+ "." +:+ fileIcon)) s in
  let fileExtensions := fileExtensions associations in
  let s := when_object fileExtensions
             (fun fileExtension d =>
                accept d (dotted (fileExtensionIcon CSS_escape fileExtension)
                            +:+ "." +:+ fileIcon)) s in
  let languageIds := languageIds associations in
  let s :=
    match fileExtensions with
    | Some _ =>
        Js.for_in (default [] languageIds)
          (fun languageId d =>
             accept d ("." +:+ languageIcon CSS_escape languageId
                         +:+ "." +:+ fileIcon)) s
    | None => s
    end in
  s.

(** The calls [accept(definitionId, selector)] that [collectSelectors]
    makes, in order: [collectSelectors] run with a recording [accept]. *)
Definition accepted (associations : PluginIconsAssociation) : list (string * string) :=
  collectSelectors associations (fun d sel calls => calls ++ [(d, sel)]) [].

(** Lines 165-183 of [load]: the [definitionSelectors] map once the dark,
    light and high-contrast associations have been collected. *)
Definition collectAll (iconDefinitions : gmap string PluginIconDefinition)
    (json : PluginIconThemeDocument) : list (string * list string) :=
  let definitionSelectors := [] in
  let definitionSelectors :=
    collectSelectors (base json) (acceptSelector iconDefinitions Dark)
      definitionSelectors in
  let definitionSelectors :=
    match light json with
    | Some l => collectSelectors l (acceptSelector iconDefinitions Light)
                  definitionSelectors
    | None => definitionSelectors
    end in
  let definitionSelectors :=
    match highContrast json with
    | Some h => collectSelectors h (acceptSelector iconDefinitions Hc)
                  definitionSelectors
    | None => definitionSelectors
    end in
  definitionSelectors.

End Selectors.

(** ** The theme object and [load] (lines 82-266) *)

Record PluginIconTheme := {
  id : string;
  label : string;
  description : option string;
  uri : string;
  uiTheme : option string;
  pluginId : string;
  packagePath : string;
  styleSheetContent : option string
}.

Definition set_styleSheetContent (t : PluginIconTheme) (v : option string)
    : PluginIconTheme :=
  {| id := id t; label := label t; description := description t; uri := uri t;
     uiTheme := uiTheme t; pluginId := pluginId t; packagePath := packagePath t;
     styleSheetContent := v |}.

(** The theme together with the record of [fileSystem.resolveContent] calls. *)
Record LoadState := {
  theme : PluginIconTheme;
  resolved : list string
}.

(** How the promise returned by [load] settles. *)
Inductive Settled := Fulfilled | Rejected.

Definition nl : string := String (ascii_of_nat 10) EmptyString.

Section Load.

Variable CSS_escape : string -> option string.

(** [packageUri.path.relative(locationUri.resolve(iconPath).path.normalize())]
    printed with [normalize().toString()], from [packagePath], [uri] and
    [iconPath]; [None] when [relative] yields [undefined]. *)
Variable relativePath : string -> string -> string -> option string.
Variable encodeURIComponent : string -> string.

(** [fileSystem.resolveContent(uri)]: the content, or [None] on rejection. *)
Variable resolveContent : string -> option string.

(** [jsoncparser.parse(content, ...)]: [None] when it yields [undefined], on
    which reading [json.iconDefinitions] throws. *)
Variable parse : string -> option PluginIconThemeDocument.

Definition toCSSUrl (t : PluginIconTheme) (iconPath : option string) : option string :=
  match iconPath with
  | Some p =>
      if negb (Js.truthy iconPath) then None
      else match relativePath (packagePath t) (uri t) p with
           | Some rel =>
               Some ("url('hostedPlugin/" +:+ pluginId t +:+ "/"
                       +:+ encodeURIComponent rel +:+ "')")
           | None => None
           end
  | None => None
  end.

(** Lines 189-202: the [src] descriptor of one font. *)
Definition fontSrc (t : PluginIconTheme) (font : PluginFontDefinition) : string :=
  match font_src font with
  | Some locations =>
      fold_left
        (fun src srcLocation =>
           match srcLocation with
           | Some loc =>
               if Js.truthy (src_path loc) then
                 match toCSSUrl t (src_path loc) with
                 | Some cssUrl =>
                     if Js.truthy (Some cssUrl) then
                       let src := if Js.truthy (Some src) then src +:+ ", " else src in
                       src +:+ cssUrl +:+ " format('" +:+ Js.show (src_format loc) +:+ "')"
                     else src
                 | None => src
                 end
               else src
           | None => src
           end)
        locations EmptyString
  | None => EmptyString
  end.

Definition fontFace (src : string) (font : PluginFontDefinition) : string :=
  "@font-face {" +:+ nl
    +:+ "    src: " +:+ src +:+ ";" +:+ nl
    +:+ "    font-family: '" +:+ Js.show (font_id font) +:+ "';" +:+ nl
    +:+ "    font-weight: " +:+ Js.show (font_weight font) +:+ ";" +:+ nl
    +:+ "    font-style: " +:+ Js.show (font_style font) +:+ ";" +:+ nl
    +:+ "}" +:+ nl.

(** Lines 185-222: what the [fonts] array appends to the style sheet. *)
Definition emitFonts (t : PluginIconTheme) (fonts : option (list (option PluginFontDefinition)))
    (css : string) : string :=
  match fonts with
  | Some fonts =>
      let css :=
        fold_left
          (fun css font =>
             match font with
             | Some font =>
                 let src := fontSrc t font in
                 if Js.truthy (Some src) then css +:+ fontFace src font else css
             | None => css
             end)
          fonts css in
      match fonts with
      | Some firstFont :: _ =>
          if Js.truthy (font_id firstFont) then
            css +:+ "." +:+ fileIcon +:+ "::before, ." +:+ folderIcon
                +:+ "::before, ." +:+ rootFolderIcon +:+ "::before {" +:+ nl
                +:+ "    font-family: '" +:+ Js.show (font_id firstFont) +:+ "';" +:+ nl
                +:+ "    font-size: "
                +:+ Js.show (Js.or_else (font_size firstFont) (Some "150%")) +:+ nl
                +:+ "}" +:+ nl
          else css
      | _ => css
      end
  | None => css
  end.

Definition imageRule (selectors : list string) (cssUrl : string) : string :=
  Js.join ", " selectors +:+ " {" +:+ nl
    +:+ "    display: inline-block;" +:+ nl
    +:+ "    width: 16px;" +:+ nl
    +:+ "    height: 16px;" +:+ nl
    +:+ "    background-size: 16px;" +:+ nl
    +:+ "    background-image: " +:+ cssUrl +:+ ";" +:+ nl
    +:+ "}" +:+ nl.

Definition beforeRule (selectors : list string) (iconDefinition : PluginIconDefinition)
    : string :=
  let body := EmptyString in
  let body := if Js.truthy (fontColor iconDefinition)
              then body +:+ " color: " +:+ Js.show (fontColor iconDefinition) +:+ ";"
              else body in
  let body := if Js.truthy (fontCharacter iconDefinition)
              then body +:+ " content: '" +:+ Js.show (fontCharacter iconDefinition) +:+ "';"
              else body in
  let body := if Js.truthy (fontSize iconDefinition)
              then body +:+ " font-size: " +:+ Js.show (fontSize iconDefinition) +:+ ";"
              else body in
  let body := if Js.truthy (fontId iconDefinition)
              then body +:+ " font-family: " +:+ Js.show (fontId iconDefinition) +:+ ";"
              else body in
  Js.join ", " (map (fun s => s +:+ "::before") selectors)
    +:+ " {" +:+ body +:+ " }" +:+ nl.

(** Lines 225-255: the rules one pass of the loop over
    [definitionSelectors.keys()] appends for [definitionId]. *)
Definition rulesFor (t : PluginIconTheme) (iconDefinitions : gmap string PluginIconDefinition)
    (definitionSelectors : list (string * list string)) (definitionId : string)
    : list string :=
  let iconDefinition := index_iconDefinitions iconDefinitions definitionId in
  let selectors := JsMap.get definitionId definitionSelectors in
  match selectors, iconDefinition with
  | Some selectors, Some iconDefinition =>
      let cssUrl := toCSSUrl t (iconPath iconDefinition) in
      (if Js.truthy cssUrl then [imageRule selectors (Js.show cssUrl)] else [])
      ++ (if (Js.truthy (fontCharacter iconDefinition)
              || Js.truthy (fontColor iconDefinition))%bool
          then [beforeRule selectors iconDefinition] else [])
  | _, _ => []
  end.

(** Lines 224-256: the loop, appending to the style sheet. *)
Definition emitRules (t : PluginIconTheme) (iconDefinitions : gmap string PluginIconDefinition)
    (definitionSelectors : list (string * list string)) (css : string) : string :=
  fold_left
    (fun css definitionId =>
       fold_left String.append
         (rulesFor t iconDefinitions definitionSelectors definitionId) css)
    (JsMap.keys definitionSelectors) css.

(** The rules of the loop, each with the definition id it was emitted for. *)
Definition emittedRules (t : PluginIconTheme)
    (iconDefinitions : gmap string PluginIconDefinition)
    (definitionSelectors : list (string * list string)) : list (string * string) :=
  flat_map
    (fun definitionId =>
       map (fun rule => (definitionId, rule))
         (rulesFor t iconDefinitions definitionSelectors definitionId))
    (JsMap.keys definitionSelectors).

(** [load()], lines 154-257. *)
Definition load (st : LoadState) : Settled * LoadState :=
  match styleSheetContent (theme st) with
  | Some _ => (Fulfilled, st)
  | None =>
      let t := set_styleSheetContent (theme st) (Some EmptyString) in
      let st := {| theme := t; resolved := resolved st ++ [uri t] |} in
      match resolveContent (uri t) with
      | None => (Rejected, st)
      | Some content =>
          match parse content with
          | None => (Rejected, st)
          | Some json =>
              match iconDefinitions json with
              | None => (Fulfilled, st)
              | Some iconDefinitions =>
                  let definitionSelectors :=
                    collectAll CSS_escape iconDefinitions json in
                  let css := default EmptyString (styleSheetContent t) in
                  let css := emitFonts t (fonts json) css in
                  let css := emitRules t iconDefinitions definitionSelectors css in
                  (Fulfilled,
                   {| theme := set_styleSheetContent t (Some css);
                      resolved := resolved st |})
              end
          end
      end
  end.

End Load.

(** ** Elements handed to the label providers

    The sources inspect an element only through [instanceof URI], the type
    guards [WorkspaceRootNode.is], [DirNode.is], [FileStatNode.is],
    [FileStat.is] and a few properties; an element is the record of those
    observations. *)

Record Element := {
  uriScheme : option string;        (* [Some scheme] when [element instanceof URI] *)
  isWorkspaceRootNode : bool;
  isDirNode : bool;
  isFileStatNode : bool;
  isFileStat : bool;
  expanded : bool;
  isDirectory : bool;
  fileStatUri : string;             (* [element.fileStat.uri] *)
  statUri : string;                 (* [element.uri] *)
  pathExt : string;                 (* [element.path.ext] *)
  uriString : string;               (* [element.toString()] *)
  displayName : string;             (* [element.displayName] *)
  pathString : string               (* [element.path.toString()] *)
}.

(** ** [PluginIconTheme.getIcon] (lines 379-420) *)

Section ThemeIcons.

Variable CSS_escape : string -> option string.

(** [labelProvider.getName] *)
Variable labelProvider_getName : Element -> string.

(** The language id monaco's mode service assigns to a resource. *)
Variable languageOf : string -> string.

Definition getFolderIcon (element : Element) : string :=
  let name := labelProvider_getName element in
  folderIcon +:+ " " +:+ folderNameIcon CSS_escape name.

Definition getFileIcon (element : Element) (uri : string) : string :=
  let name := labelProvider_getName element in
  let classNames := fileNameIcon CSS_escape name in
  let classNames := fileIcon :: classNames in
  let language := languageOf uri in
  let classNames := classNames ++ [languageIcon CSS_escape language] in
  Js.join " " classNames.

Definition theme_getIcon (element : Element) : string :=
  if isWorkspaceRootNode element then
    let name := labelProvider_getName element in
    if expanded element then
      rootFolderExpandedIcon +:+ " " +:+ expandedFolderNameIcon CSS_escape name
    else rootFolderIcon +:+ " " +:+ folderNameIcon CSS_escape name
  else if isDirNode element then
    if expanded element then
      let name := labelProvider_getName element in
      folderExpandedIcon +:+ " " +:+ expandedFolderNameIcon CSS_escape name
    else getFolderIcon element
  else if isFileStatNode element then getFileIcon element (fileStatUri element)
  else if isFileStat element then
    if isDirectory element then getFolderIcon element
    else getFileIcon element (statUri element)
  else if negb (Js.truthy (Some (pathExt element))) then getFolderIcon element
  else getFileIcon element (uriString element).

End ThemeIcons.

(** ** [PluginIconThemeService] (lines 424-477) *)

(** What [iconThemeService.getDefinition(iconThemeService.current)] can be:
    a [PluginIconTheme] or a definition of another class. *)
Inductive IconThemeDefinition :=
| IsPluginIconTheme (t : PluginIconTheme)
| OtherIconTheme (themeId : string).

Definition MAX_SAFE_INTEGER : Z := 2 ^ 53 - 1.

Module PluginIconThemeService.

Section Service.

Variable CSS_escape : string -> option string.
Variable labelProvider_getName : Element -> string.
Variable languageOf : string -> string.

(** [this.iconThemeService.getDefinition(this.iconThemeService.current)] *)
Variable current : option IconThemeDefinition.

Definition instanceof_PluginIconTheme (d : option IconThemeDefinition) : bool :=
  match d with
  | Some (IsPluginIconTheme _) => true
  | _ => false
  end.

Definition is_file_URI (element : Element) : bool :=
  match uriScheme element with
  | Some scheme => String.eqb scheme "file"
  | None => false
  end.

Definition canHandle (element : Element) : Z :=
  if (instanceof_PluginIconTheme current
      && (is_file_URI element || isFileStat element || isFileStatNode element))%bool
  then MAX_SAFE_INTEGER
  else 0.

Definition getIcon (element : Element) : option string :=
  match current with
  | Some (IsPluginIconTheme _) =>
      Some (theme_getIcon CSS_escape labelProvider_getName languageOf element)
  | _ => None
  end.

End Service.

End PluginIconThemeService.

(** ** [label-provider.ts] *)

Module LabelProviderContribution.

(** The interface of lines 29-66; the optional methods are [option]s. *)
Record t {element : Type} := {
  canHandle : element -> Z;
  getIcon : option (element -> option string);
  getName : option (element -> option string);
  getLongName : option (element -> option string)
}.
Arguments t : clear implicits.

End LabelProviderContribution.

(** Modelled from the spec: the namespace [Prioritizeable] of [common/types],
    which [findContribution] calls and which is not among the sources.  The
    interface documentation of [canHandle] fixes what it computes: all
    contributions are ordered by the returned number if greater than zero,
    and the highest number wins. *)
Module Prioritizeable.

(** Modelled from the spec: a value with the priority computed for it. *)
Record t {A : Type} := { value : A; priority : Z }.
Arguments t : clear implicits.

Section Prioritize.

Context {A : Type}.

(** Modelled from the spec: each value paired with its priority. *)
Definition toPrioritizeableSync (rawValue : list A) (getPriority : A -> Z)
    : list (t A) :=
  map (fun v => {| value := v; priority := getPriority v |}) rawValue.

(** Modelled from the spec: only numbers greater than zero count. *)
Definition isValid (p : t A) : bool := 0 <? priority p.

(** Modelled from the spec: the comparison that puts the highest number
    first. *)
Definition compare (p p2 : t A) : Z := priority p2 - priority p.

(** Modelled from the spec: a stable [Array.prototype.sort] by [compare];
    [x] goes before the first element it does not compare greater than. *)
Fixpoint insert (x : t A) (sorted : list (t A)) : list (t A) :=
  match sorted with
  | [] => [x]
  | y :: rest => if compare x y <=? 0 then x :: y :: rest else y :: insert x rest
  end.

(** Modelled from the spec: the sort of [prioritizeAllSync]. *)
Definition sort (ps : list (t A)) : list (t A) := foldr insert [] ps.

(** Modelled from the spec: [Prioritizeable.prioritizeAllSync]; the values
    of non-positive priority are dropped and the others are sorted by
    decreasing priority. *)
Definition prioritizeAllSync (values : list A) (getPriority : A -> Z) : list (t A) :=
  let prioritizeable := toPrioritizeableSync values getPriority in
  sort (List.filter isValid prioritizeable).

End Prioritize.

End Prioritizeable.

Module LabelProvider.

Section Provider.

Context {element : Type}.

(** [this.contributionProvider.getContributions()] *)
Variable contributions : list (LabelProviderContribution.t element).

Definition findContribution (e : element) : list (LabelProviderContribution.t element) :=
  let prioritized :=
    Prioritizeable.prioritizeAllSync contributions
      (fun contrib => LabelProviderContribution.canHandle contrib e) in
  map Prioritizeable.value prioritized.

(** [contribution.m && contribution.m(element)] for an optional method. *)
Definition call (m : option (element -> option string)) (e : element) : option string :=
  match m with
  | Some f => f e
  | None => None
  end.

(** The common loop of [getIcon], [getName] and [getLongName]:
    [continue] on [undefined], [return] the first other value. *)
Fixpoint first_value (m : LabelProviderContribution.t element -> option (element -> option string))
    (e : element) (contributions : list (LabelProviderContribution.t element))
    (fallback : string) : string :=
  match contributions with
  | [] => fallback
  | contribution :: rest =>
      match call (m contribution) e with
      | None => first_value m e rest fallback
      | Some value => value
      end
  end.

Definition getIcon (e : element) : string :=
  let contributions := findContribution e in
  first_value LabelProviderContribution.getIcon e contributions "".

Definition getName (e : element) : string :=
  let contributions := findContribution e in
  first_value LabelProviderContribution.getName e contributions "<unknown>".

Definition getLongName (e : element) : string :=
  let contributions := findContribution e in
  first_value LabelProviderContribution.getLongName e contributions "".

End Provider.

End LabelProvider.

(** [DefaultUriLabelProviderContribution] (lines 72-105) *)

Definition FOLDER_ICON : string := "fa fa-folder".
Definition FILE_ICON : string := "fa fa-file".

Section DefaultUriLabelProvider.

(** [fileIcons.getClassWithColor] *)
Variable getClassWithColor : string -> option string.

Definition instanceof_URI (element : Element) : bool :=
  match uriScheme element with
  | Some _ => true
  | None => false
  end.

Definition DefaultUriLabelProviderContribution
    : LabelProviderContribution.t Element :=
  {| LabelProviderContribution.canHandle :=
       fun uri => if instanceof_URI uri then 1 else 0;
     LabelProviderContribution.getIcon :=
       Some (fun uri =>
               let iconClass := getClassWithColor (displayName uri) in
               if negb (Js.truthy iconClass) then
                 if Js.indexOf "."%char (displayName uri) =? -1
                 then Some FOLDER_ICON else Some FILE_ICON
               else iconClass);
     LabelProviderContribution.getName := Some (fun uri => Some (displayName uri));
     LabelProviderContribution.getLongName := Some (fun uri => Some (pathString uri)) |}.

End DefaultUriLabelProvider.

(** [PluginIconThemeService] as the label-provider contribution it
    implements: it has [canHandle] and [getIcon] only. *)
Definition PluginIconThemeService_contribution
    (CSS_escape : string -> option string) (labelProvider_getName : Element -> string)
    (languageOf : string -> string) (current : option IconThemeDefinition)
    : LabelProviderContribution.t Element :=
  {| LabelProviderContribution.canHandle := PluginIconThemeService.canHandle current;
     LabelProviderContribution.getIcon :=
       Some (PluginIconThemeService.getIcon CSS_escape labelProvider_getName
               languageOf current);
     LabelProviderContribution.getName := None;
     LabelProviderContribution.getLongName := None |}.

(** ** [vscx-install-button-component.tsx] *)

Module VSCXInstallButton.

(** The properties of [VSCodeExtensionPartResolved] the component uses. *)
Record Extension := {
  installed : bool;
  busy : bool;
  outdated : bool
}.

Definition set_busy (e : Extension) (b : bool) : Extension :=
  {| installed := installed e; busy := b; outdated := outdated e |}.

(** A call on [props.service], with the extension as it is when passed. *)
Inductive ServiceCall :=
| install (e : Extension)
| uninstall (e : Extension).

(** [props.extension], the calls made on [props.service] so far and
    whether [event.stopPropagation()] was called. *)
Record State := {
  extension : Extension;
  calls : list ServiceCall;
  propagationStopped : bool
}.

Definition onInstallButtonClicked (s : State) : State :=
  let e := set_busy (extension s) true in
  {| extension := e; calls := calls s ++ [install e];
     propagationStopped := propagationStopped s |}.

Definition onUninstallButtonClicked (s : State) : State :=
  let e := set_busy (extension s) true in
  {| extension := e; calls := calls s ++ [uninstall e];
     propagationStopped := propagationStopped s |}.

(** The [onClick] handler of lines 54-63. *)
Definition onClick (s : State) : State :=
  if negb (busy (extension s)) then
    let s := if installed (extension s) then onUninstallButtonClicked s
             else onInstallButtonClicked s in
    {| extension := extension s; calls := calls s; propagationStopped := true |}
  else s.

Inductive Content := Spinner | Label (text : string).

Record Button := {
  key : string;
  className : string;
  content : Content
}.

Definition createButtons (extension : Extension) : list Button :=
  let btnLabel := if installed extension then "Uninstall" else "Install" in
  let content := if busy extension then Spinner else Label btnLabel in
  [ {| key := "extensionDetailBtn" +:+ btnLabel;
       className :=
         "theia-button extensionButton"
           +:+ (if busy extension then " working" else "") +:+ " "
           +:+ (if (installed extension && negb (busy extension))%bool
                then " installed" else "") +:+ " "
           +:+ (if (outdated extension && negb (busy extension))%bool
                then " outdated" else "");
       content := content |} ].

End VSCXInstallButton.

(** ** Vocabulary of the statements *)

(** [s] contains the character [c]. *)
Definition contains (c : ascii) (s : string) : Prop :=
  In c (list_ascii_of_string s).


(** The call [accept(v, selector)] guarded by [if (v)]. *)
Definition guarded_call (v : option string) (selector : string) : list (string * string) :=
  match v with
  | Some d => if String.eqb d EmptyString then [] else [(d, selector)]
  | None => []
  end.

(** The calls of a guarded [for ... in] loop over an association object. *)
Definition object_calls (o : option (list (string * string))) (selector : string -> string)
    : list (string * string) :=
  match o with
  | Some props => map (fun kv => (snd kv, selector (fst kv))) props
  | None => []
  end.

(** Applying [accept] to a list of calls, in order. *)
Definition apply_calls {St} (accept : string -> string -> St -> St)
    (calls : list (string * string)) (s : St) : St :=
  fold_left (fun s c => accept (fst c) (snd c) s) calls s.

(** The calls of [collectSelectors], in program order. *)
Definition selector_calls (CSS_escape : string -> option string)
    (a : PluginIconsAssociation) : list (string * string) :=
  guarded_call (folder a) ("." +:+ folderIcon)
  ++ guarded_call (folderExpanded a) ("." +:+ folderExpandedIcon)
  ++ guarded_call (Js.or_else (rootFolder a) (folder a)) ("." +:+ rootFolderIcon)
  ++ guarded_call (Js.or_else (rootFolderExpanded a) (folderExpanded a))
       ("." +:+ rootFolderExpandedIcon)
  ++ guarded_call (file a) ("." +:+ fileIcon)
  ++ object_calls (folderNames a)
       (fun n => "." +:+ folderNameIcon CSS_escape n +:+ "." +:+ folderIcon)
  ++ object_calls (folderNamesExpanded a)
       (fun n => "." +:+ expandedFolderNameIcon CSS_escape n
                   +:+ "." +:+ folderExpandedIcon)
  ++ object_calls (fileNames a)
       (fun n => dotted (fileNameIcon CSS_escape n) +:+ "." +:+ fileIcon)
  ++ object_calls (fileExtensions a)
       (fun e => dotted (fileExtensionIcon CSS_escape e) +:+ "." +:+ fileIcon)
  ++ match fileExtensions a with
     | Some _ =>
         object_calls (Some (default [] (languageIds a)))
           (fun l => "." +:+ languageIcon CSS_escape l +:+ "." +:+ fileIcon)
     | None => []
     end.


(** The first defined value among the answers of [consulted], if any. *)
Definition first_defined {element : Type}
    (m : LabelProviderContribution.t element -> option (element -> option string))
    (e : element) (consulted : list (LabelProviderContribution.t element))
    : option string :=
  head (omap (fun c => LabelProvider.call (m c) e) consulted).

(** No contribution other than [c] that [canHandle] rates at least as high
    as [c] answers through method [m]. *)
Definition outranks_answers {element : Type}
    (m : LabelProviderContribution.t element -> option (element -> option string))
    (contributions : list (LabelProviderContribution.t element)) (e : element)
    (c : LabelProviderContribution.t element) : Prop :=
  forall c', In c' contributions ->
    LabelProviderContribution.canHandle c e <= LabelProviderContribution.canHandle c' e ->
    c' = c \/ LabelProvider.call (m c') e = None.

(** The current icon theme is a [PluginIconTheme]. *)
Definition is_plugin_theme (current : option IconThemeDefinition) : Prop :=
  exists t, current = Some (IsPluginIconTheme t).

(** The element is a URI with scheme [file], a [FileStat] or a
    [FileStatNode]. *)
Definition is_file_like (element : Element) : Prop :=
  uriScheme element = Some "file"
  \/ isFileStat element = true
  \/ isFileStatNode element = true.

(** ** Sample documents *)

(** Associations that map the extension [d.ts] only. *)
Definition d_ts_associations : PluginIconsAssociation :=
  {| folder := None; file := None; folderExpanded := None; rootFolder := None;
     rootFolderExpanded := None; folderNames := None; folderNamesExpanded := None;
     fileExtensions := Some [("d.ts", "_typescript_def")];
     fileNames := None; languageIds := None |}.

(** Associations that map the language [typescript] only. *)
Definition typescript_associations : PluginIconsAssociation :=
  {| folder := None; file := None; folderExpanded := None; rootFolder := None;
     rootFolderExpanded := None; folderNames := None; folderNamesExpanded := None;
     fileExtensions := None; fileNames := None;
     languageIds := Some [("typescript", "_ts")] |}.

(** The same with an empty [fileExtensions] object besides. *)
Definition typescript_associations_with_extensions : PluginIconsAssociation :=
  {| folder := None; file := None; folderExpanded := None; rootFolder := None;
     rootFolderExpanded := None; folderNames := None; folderNamesExpanded := None;
     fileExtensions := Some []; fileNames := None;
     languageIds := Some [("typescript", "_ts")] |}.

(** Associations with [folder] and [folderExpanded] only. *)
Definition folder_associations (folderId expandedId : string) : PluginIconsAssociation :=
  {| folder := Some folderId; file := None; folderExpanded := Some expandedId;
     rootFolder := None; rootFolderExpanded := None; folderNames := None;
     folderNamesExpanded := None; fileExtensions := None; fileNames := None;
     languageIds := None |}.

Definition svg_icon (path : string) : PluginIconDefinition :=
  {| iconPath := Some path; fontColor := None; fontCharacter := None;
     fontSize := None; fontId := None |}.

(** ** Sample elements and providers *)

(** The URI [file:///project/main.ts]. *)
Definition main_ts_uri : Element :=
  {| uriScheme := Some "file"; isWorkspaceRootNode := false; isDirNode := false;
     isFileStatNode := false; isFileStat := false; expanded := false;
     isDirectory := false; fileStatUri := ""; statUri := ""; pathExt := ".ts";
     uriString := "file:///project/main.ts"; displayName := "main.ts";
     pathString := "/project/main.ts" |}.

(** An object that is neither a URI nor a file stat nor a tree node. *)
Definition plain_object : Element :=
  {| uriScheme := None; isWorkspaceRootNode := false; isDirNode := false;
     isFileStatNode := false; isFileStat := false; expanded := false;
     isDirectory := false; fileStatUri := ""; statUri := ""; pathExt := "";
     uriString := ""; displayName := ""; pathString := "" |}.

Definition sample_theme : PluginIconTheme :=
  {| id := "vendor.icons-sample"; label := "Sample"; description := None;
     uri := "file:///plugins/icons/sample.json"; uiTheme := None;
     pluginId := "vendor.icons"; packagePath := "/plugins/icons";
     styleSheetContent := None |}.

(** The default contribution, with no class known to [file-icons-js]. *)
Definition sample_default : LabelProviderContribution.t Element :=
  DefaultUriLabelProviderContribution (fun _ => None).

(** The plugin icon theme service while [sample_theme] is selected. *)
Definition sample_service : LabelProviderContribution.t Element :=
  PluginIconThemeService_contribution no_CSS_escape
    (LabelProvider.getName [sample_default]) (fun _ => "typescript")
    (Some (IsPluginIconTheme sample_theme)).

(** ** Sample button states *)

Definition button_state (installed busy : bool) : VSCXInstallButton.State :=
  {| VSCXInstallButton.extension :=
       {| VSCXInstallButton.installed := installed; VSCXInstallButton.busy := busy;
          VSCXInstallButton.outdated := false |};
     VSCXInstallButton.calls := [];
     VSCXInstallButton.propagationStopped := false |}.

(** ** A sample theme file *)

(** The icon definitions of the sample theme file. *)
Definition sample_definitions : gmap string PluginIconDefinition :=
  {[ "_folder" := svg_icon "folder.svg"; "_ts" := svg_icon "ts.svg" ]}.

Definition sample_document : PluginIconThemeDocument :=
  {| base :=
       {| folder := Some "_folder"; file := None; folderExpanded := None;
          rootFolder := None; rootFolderExpanded := None; folderNames := None;
          folderNamesExpanded := None;
          fileExtensions := Some [("ts", "_ts")];
          fileNames := None;
          languageIds := Some [("typescript", "_ts"); ("cobol", "_missing")] |};
     iconDefinitions := Some sample_definitions;
     fonts := None; light := None; highContrast := None;
     hidesExplorerArrows := None |}.

(** The icon paths of the sample lie next to the theme file in the package
    root and consist of unreserved characters. *)
Definition sample_relativePath (packagePath uri iconPath : string) : option string :=
  Some iconPath.

Definition sample_encodeURIComponent (s : string) : string := s.

Definition sample_resolveContent (uri : string) : option string :=
  Some "sample.json".

Definition sample_parse (content : string) : option PluginIconThemeDocument :=
  Some sample_document.

Definition sample_load : LoadState -> Settled * LoadState :=
  load no_CSS_escape sample_relativePath sample_encodeURIComponent
    sample_resolveContent sample_parse.

Definition unloaded : LoadState := {| theme := sample_theme; resolved := [] |}.

(** ** Vocabulary of the further statements *)

(** A character the fallback of [escapeCSS] keeps: a dash, a letter or a
    digit. *)
Definition safe_char (c : ascii) : bool :=
  (is_dash c || is_alpha c || is_digit c)%bool.

(** The selector as [acceptSelector] records it for a theme type. *)
Definition themed (themeType : ThemeType) (selector : string) : string :=
  match themeType with
  | Dark => selector
  | Light => ".theia-light " +:+ selector
  | Hc => ".theia-hc " +:+ selector
  end.

(** The selectors that the calls pass for the definition [d], in order. *)
Definition selectors_of (d : string) (calls : list (string * string)) : list string :=
  map snd (List.filter (fun c => String.eqb (fst c) d) calls).

(** The label provider that names an element by its [displayName]. *)
Definition displayName_provider (element : Element) : string := displayName element.

(** A mode service that knows TypeScript only. *)
Definition typescript_mode (uri : string) : string := "typescript".



(** The calls of [collectSelectors] for an optional association object
    ([json.light], [json.highContrast]): none when it is absent. *)
Definition accepted_opt (CSS_escape : string -> option string)
    (o : option PluginIconsAssociation) : list (string * string) :=
  match o with
  | Some a => accepted CSS_escape a
  | None => []
  end.

(** A theme file with folder icons for the dark and the light theme. *)
Definition two_tone_definitions : gmap string PluginIconDefinition :=
  {[ "_folder" := svg_icon "folder.svg"; "_folder_light" := svg_icon "folder_light.svg" ]}.

Definition two_tone_document : PluginIconThemeDocument :=
  {| base := folder_associations "_folder" "_folder_open";
     iconDefinitions := Some two_tone_definitions;
     fonts := None;
     light := Some (folder_associations "_folder_light" "_folder_open_light");
     highContrast := None;
     hidesExplorerArrows := None |}.

(** The emitted rules that belong to the definition [d]. *)
Definition rules_of (d : string) (rules : list (string * string)) : list (string * string) :=
  List.filter (fun r => String.eqb (fst r) d) rules.

(** [load] called [n] times in a row, each call awaited. *)
Fixpoint load_times (load : LoadState -> Settled * LoadState) (n : nat) (st : LoadState)
    : LoadState :=
  match n with
  | O => st
  | S n' => load_times load n' (snd (load st))
  end.

(** A file system on which every read is rejected. *)
Definition failing_resolveContent (uri : string) : option string := None.

(** A theme file with a font and no icon definitions. *)
Definition fonts_only_document : PluginIconThemeDocument :=
  {| base := folder_associations "_folder" "_folder_open";
     iconDefinitions := None;
     fonts :=
       Some [Some {| font_id := Some "seti"; font_weight := Some "normal";
                     font_style := Some "normal"; font_size := Some "150%";
                     font_src :=
                       Some [Some {| src_path := Some "seti.woff";
                                     src_format := Some "woff" |}] |}];
     light := None; highContrast := None; hidesExplorerArrows := None |}.

Section FontSources.

Variable relativePath : string -> string -> string -> option string.
Variable encodeURIComponent : string -> string.

(** The descriptor [url(...) format('...')] of a source location of a font,
    for the locations that lines 192-199 use: those with a path for which
    [toCSSUrl] yields a URL. *)
Definition src_descriptor (t : PluginIconTheme) (srcLocation : option PluginFontSource)
    : option string :=
  match srcLocation with
  | Some loc =>
      if Js.truthy (src_path loc) then
        match toCSSUrl relativePath encodeURIComponent t (src_path loc) with
        | Some cssUrl => Some (cssUrl +:+ " format('" +:+ Js.show (src_format loc) +:+ "')")
        | None => None
        end
      else None
  | None => None
  end.

End FontSources.

(** A font with two usable sources and two unusable ones between them. *)
Definition two_source_font : PluginFontDefinition :=
  {| font_id := Some "seti"; font_weight := None; font_style := None;
     font_size := None;
     font_src :=
       Some [Some {| src_path := Some "seti.woff"; src_format := Some "woff" |};
             None;
             Some {| src_path := None; src_format := Some "ttf" |};
             Some {| src_path := Some "seti.ttf"; src_format := None |}] |}.

(** ** Vocabulary for the label provider *)

Section Answers.

Context {element : Type}.
Variable m : LabelProviderContribution.t element -> option (element -> option string).
Variable contributions : list (LabelProviderContribution.t element).
Variable e : element.

(** [value] is what a positively rated contribution answers through [m],
    and no contribution that answers is rated higher. *)
Definition best_answer (value : string) : Prop :=
  exists c,
    In c contributions
    /\ 0 < LabelProviderContribution.canHandle c e
    /\ LabelProvider.call (m c) e = Some value
    /\ forall c', In c' contributions ->
         0 < LabelProviderContribution.canHandle c' e ->
         LabelProvider.call (m c') e <> None ->
         LabelProviderContribution.canHandle c' e
         <= LabelProviderContribution.canHandle c e.

(** No positively rated contribution answers through [m]. *)
Definition no_answer : Prop :=
  forall c, In c contributions ->
    0 < LabelProviderContribution.canHandle c e ->
    LabelProvider.call (m c) e = None.

End Answers.

(** ** [LabelProvider.affects] (label-provider.ts, lines 68-70 and 134-144) *)

Record DidChangeLabelEvent {element : Type} := {
  event_affects : element -> bool
}.
Arguments DidChangeLabelEvent : clear implicits.

Section Affects.

Context {element : Type}.

(** [this.contributionProvider.getContributions()] *)
Variable contributions : list (LabelProviderContribution.t element).

(** The optional method [affects] of a contribution. *)
Variable contribution_affects :
  LabelProviderContribution.t element ->
  option (element -> DidChangeLabelEvent element -> bool).

(** The loop of lines 138-142 over [findContribution(element)]. *)
Fixpoint some_contribution_affects (e : element) (event : DidChangeLabelEvent element)
    (found : list (LabelProviderContribution.t element)) : bool :=
  match found with
  | [] => false
  | contribution :: rest =>
      if match contribution_affects contribution with
         | Some affects => affects e event
         | None => false
         end
      then true
      else some_contribution_affects e event rest
  end.

Definition LabelProvider_affects (e : element) (event : DidChangeLabelEvent element)
    : bool :=
  if event_affects event e then true
  else some_contribution_affects e event
         (LabelProvider.findContribution contributions e).

End Affects.

(** The state of the install button once it has been clicked. *)
Definition working_button (installed : bool) : VSCXInstallButton.Button :=
  {| VSCXInstallButton.key :=
       "extensionDetailBtn" +:+ (if installed then "Uninstall" else "Install");
     VSCXInstallButton.className := "theia-button extensionButton working  ";
     VSCXInstallButton.content := VSCXInstallButton.Spinner |}.

(** The five classes that tell files, folders and root folders apart. *)
Definition kind_classes : list string :=
  [fileIcon; folderIcon; folderExpandedIcon; rootFolderIcon; rootFolderExpandedIcon].

(** [s] ends with [suffix]. *)
Definition has_suffix (suffix s : string) : bool :=
  if (String.length suffix <=? String.length s)%nat
  then String.eqb (Js.drop_chars (String.length s - String.length suffix) s) suffix
  else false.

(** Associations with a root folder icon of its own. *)
Definition root_folder_associations : PluginIconsAssociation :=
  {| folder := Some "_folder"; file := None; folderExpanded := Some "_folder_open";
     rootFolder := Some "_root"; rootFolderExpanded := None; folderNames := None;
     folderNamesExpanded := None; fileExtensions := None; fileNames := None;
     languageIds := None |}.

(** ** Class selectors without escapes *)


(** Whether the compound class selector [.c1.c2...] applies to an element
    whose [class] attribute is [classAttribute], for a selector that holds no
    escape: each class between the dots of the selector is one of the
    space-separated classes of the attribute. *)
Definition selector_applies (selector classAttribute : string) : bool :=
  match selector with
  | String "." classes =>
      forallb (fun c => existsb (String.eqb c) (Js.split " "%char classAttribute))
        (Js.split "."%char classes)
  | _ => false
  end.
(** * Properties *)

(** ** Strings *)

#[local] Arguments String.append !_ _ / : simpl nomatch.

Lemma append_assoc (a b c : string) : (a +:+ b) +:+ c = a +:+ (b +:+ c).
Proof. induction a as [|ch a IH]; simpl; [reflexivity | now rewrite IH]. Qed.

Lemma append_nil_r (a : string) : a +:+ "" = a.
Proof. induction a as [|ch a IH]; simpl; [reflexivity | now rewrite IH]. Qed.

Lemma indexOf_from_range c s i :
  Js.indexOf_from c s i = -1 \/ i <= Js.indexOf_from c s i.
Proof.
  revert i. induction s as [|d s IH]; intros i; simpl; [now left|].
  destruct (Ascii.eqb d c); [right; lia|].
  destruct (IH (i + 1)) as [H|H]; [now left | right; lia].
Qed.

Lemma indexOf_from_absent c s i :
  0 <= i -> (Js.indexOf_from c s i = -1 <-> ~ contains c s).
Proof.
  revert i. induction s as [|d s IH]; intros i Hi; simpl.
  - split; [intros _ [] | reflexivity].
  - unfold contains; simpl. destruct (Ascii.eqb_spec d c) as [->|Hne].
    + split; [lia | intros H; exfalso; apply H; now left].
    + rewrite (IH (i + 1)) by lia. unfold contains. intuition.
Qed.

Lemma indexOf_absent c s : Js.indexOf c s = -1 <-> ~ contains c s.
Proof. apply indexOf_from_absent. lia. Qed.

Lemma indexOf_from_first c pre rest i :
  ~ contains c pre ->
  Js.indexOf_from c (pre +:+ String c rest) i = i + Z.of_nat (String.length pre).
Proof.
  revert i. induction pre as [|d pre IH]; intros i Hpre; simpl.
  - rewrite Ascii.eqb_refl. lia.
  - unfold contains in Hpre; simpl in Hpre.
    destruct (Ascii.eqb_spec d c) as [->|Hne]; [exfalso; apply Hpre; now left|].
    rewrite IH; [lia | intros H; apply Hpre; now right].
Qed.

Lemma drop_chars_append pre rest :
  Js.drop_chars (String.length pre) (pre +:+ rest) = rest.
Proof. induction pre as [|d pre IH]; simpl; [now destruct rest | exact IH]. Qed.

Lemma substr_after_first c pre rest :
  Js.substr (pre +:+ String c rest) (Z.of_nat (String.length pre) + 1) = rest.
Proof.
  unfold Js.substr.
  replace (Z.to_nat (Z.of_nat (String.length pre) + 1)) with (S (String.length pre)) by lia.
  induction pre as [|d pre IH]; simpl; [now destruct rest | exact IH].
Qed.

Lemma split_nonempty sep s : Js.split sep s <> [].
Proof.
  destruct s as [|c s]; simpl; [discriminate|].
  destruct (Ascii.eqb c sep); [discriminate|].
  destruct (Js.split sep s); discriminate.
Qed.

Lemma split_absent sep s : ~ contains sep s -> Js.split sep s = [s].
Proof.
  induction s as [|c s IH]; intros H; simpl; [reflexivity|].
  unfold contains in H; simpl in H.
  destruct (Ascii.eqb_spec c sep) as [->|Hne]; [exfalso; apply H; now left|].
  rewrite IH; [reflexivity | intros Hc; apply H; now right].
Qed.

Lemma split_append sep seg rest :
  ~ contains sep seg ->
  Js.split sep (seg +:+ String sep rest) = seg :: Js.split sep rest.
Proof.
  induction seg as [|c seg IH]; intros H; simpl.
  - now rewrite Ascii.eqb_refl.
  - unfold contains in H; simpl in H.
    destruct (Ascii.eqb_spec c sep) as [->|Hne]; [exfalso; apply H; now left|].
    rewrite IH; [reflexivity | intros Hc; apply H; now right].
Qed.

(** Splitting at the dots undoes joining dot-free segments with dots. *)
Lemma split_join sep (segments : list string) :
  segments <> [] ->
  Forall (fun seg => ~ contains sep seg) segments ->
  Js.split sep (Js.join (String sep "") segments) = segments.
Proof.
  induction segments as [|seg rest IH]; intros Hne Hall; [congruence|].
  inversion Hall as [|? ? Hseg Hrest]; subst.
  destruct rest as [|seg' rest'].
  - simpl. now apply split_absent.
  - change (Js.join (String sep "") (seg :: seg' :: rest'))
      with (seg +:+ String sep "" +:+ Js.join (String sep "") (seg' :: rest')).
    change (String sep "" +:+ Js.join (String sep "") (seg' :: rest'))
      with (String sep (Js.join (String sep "") (seg' :: rest'))).
    rewrite split_append by assumption.
    f_equal. apply IH; [discriminate | assumption].
Qed.

(** Every string is the join of its segments, and no segment has the
    separator. *)
Lemma join_split sep (s : string) :
  Js.join (String sep "") (Js.split sep s) = s
  /\ Forall (fun seg => ~ contains sep seg) (Js.split sep s).
Proof.
  induction s as [|c s [IHjoin IHall]]; simpl.
  - split; [reflexivity|]. constructor; [intros [] | constructor].
  - destruct (Ascii.eqb_spec c sep) as [->|Hne].
    + split.
      * destruct (Js.split sep s) as [|seg rest] eqn:E;
          [now apply split_nonempty in E|].
        change (Js.join (String sep "") ("" :: seg :: rest))
          with (String sep (Js.join (String sep "") (seg :: rest))).
        now rewrite IHjoin.
      * constructor; [intros [] | exact IHall].
    + destruct (Js.split sep s) as [|seg rest] eqn:E;
        [now apply split_nonempty in E|].
      pose proof (List.Forall_inv IHall) as Hseg.
      pose proof (List.Forall_inv_tail IHall) as Hrest. split.
      * destruct rest as [|seg' rest'].
        -- simpl in *. now rewrite IHjoin.
        -- change (Js.join (String sep "") (String c seg :: seg' :: rest'))
             with (String c (Js.join (String sep "") (seg :: seg' :: rest'))).
           now rewrite IHjoin.
      * constructor; [|exact Hrest].
        unfold contains; simpl. intros [H|H]; [congruence | now apply Hseg].
Qed.

Lemma for_loop_push {A} (f : nat -> A) fuel i (acc : list A) :
  Js.for_loop fuel i (fun i acc => acc ++ [f i]) acc = acc ++ map f (seq i fuel).
Proof.
  revert i acc. induction fuel as [|fuel IH]; intros i acc; simpl.
  - now rewrite app_nil_r.
  - rewrite IH. now rewrite <- app_assoc.
Qed.

(** The loop of [fileExtensionIcon] as a map over the indices. *)
Lemma fileExtensionIcon_unfold esc ext :
  fileExtensionIcon esc ext
  = map (fun i => "theia-plugin-"
                    +:+ escapeCSS esc (Js.join "." (drop i (Js.split "."%char ext)))
                    +:+ "-ext-file-icon")
      (seq 0 (length (Js.split "."%char ext)))
    ++ ["theia-plugin-ext-file-icon"].
Proof.
  unfold fileExtensionIcon.
  destruct (Js.split "."%char ext) as [|seg rest] eqn:E.
  - now apply split_nonempty in E.
  - cbn [length Nat.ltb Nat.leb]. unfold Js.for_range.
    rewrite Nat.sub_0_r, for_loop_push. reflexivity.
Qed.

(** ** Class names on sample inputs *)

Example fileExtensionIcon_d_ts :
  fileExtensionIcon no_CSS_escape "d.ts"
  = ["theia-plugin-d-ts-ext-file-icon"; "theia-plugin-ts-ext-file-icon";
     "theia-plugin-ext-file-icon"].
Proof. reflexivity. Qed.

Example fileNameIcon_makefile :
  fileNameIcon no_CSS_escape "Makefile" = ["theia-plugin-makefile-file-name-icon"].
Proof. reflexivity. Qed.

Example fileNameIcon_index_d_ts :
  fileNameIcon no_CSS_escape "Index.D.ts"
  = ["theia-plugin-index-d-ts-file-name-icon"; "theia-plugin-d-ts-ext-file-icon";
     "theia-plugin-ts-ext-file-icon"; "theia-plugin-ext-file-icon"].
Proof. reflexivity. Qed.

(** ** The calls made by [collectSelectors] *)

Section Calls.

Variable CSS_escape : string -> option string.

Context {St : Type}.
Variable accept : string -> string -> St -> St.

Local Abbreviation run := (apply_calls accept).

Lemma when_truthy_run v selector s :
  when_truthy v (fun d => accept d selector) s = run (guarded_call v selector) s.
Proof.
  unfold when_truthy, guarded_call.
  destruct v as [d|]; [|reflexivity]. now destruct (String.eqb d "").
Qed.

Lemma for_in_run props (selector : string -> string) s :
  Js.for_in props (fun k d => accept d (selector k)) s
  = run (map (fun kv => (snd kv, selector (fst kv))) props) s.
Proof.
  unfold Js.for_in, apply_calls. revert s.
  induction props as [|kv props IH]; intros s; simpl; [reflexivity | apply IH].
Qed.

Lemma when_object_run o (selector : string -> string) s :
  when_object o (fun k d => accept d (selector k)) s
  = run (object_calls o selector) s.
Proof. destruct o; [apply for_in_run | reflexivity]. Qed.

Lemma run_app calls1 calls2 s : run (calls1 ++ calls2) s = run calls2 (run calls1 s).
Proof. apply fold_left_app. Qed.

Lemma collectSelectors_run a s :
  collectSelectors CSS_escape a accept s = run (selector_calls CSS_escape a) s.
Proof.
  unfold collectSelectors, selector_calls.
  rewrite !run_app, !when_truthy_run.
  rewrite (when_object_run (folderNames a)
             (fun n => "." +:+ folderNameIcon CSS_escape n +:+ "." +:+ folderIcon)).
  rewrite (when_object_run (folderNamesExpanded a)
             (fun n => "." +:+ expandedFolderNameIcon CSS_escape n
                         +:+ "." +:+ folderExpandedIcon)).
  rewrite (when_object_run (fileNames a)
             (fun n => dotted (fileNameIcon CSS_escape n) +:+ "." +:+ fileIcon)).
  rewrite (when_object_run (fileExtensions a)
             (fun e => dotted (fileExtensionIcon CSS_escape e) +:+ "." +:+ fileIcon)).
  destruct (fileExtensions a); [|reflexivity].
  now rewrite (for_in_run (default [] (languageIds a))
                 (fun l => "." +:+ languageIcon CSS_escape l +:+ "." +:+ fileIcon)).
Qed.

End Calls.

Lemma run_record (calls acc : list (string * string)) :
  fold_left (fun s c => s ++ [(fst c, snd c)]) calls acc = acc ++ calls.
Proof.
  revert acc. induction calls as [|[d sel] calls IH]; intros acc; simpl.
  - now rewrite app_nil_r.
  - rewrite IH. now rewrite <- List.app_assoc.
Qed.

(** The recorded calls are the calls listed by [selector_calls]. *)
Lemma accepted_calls esc a : accepted esc a = selector_calls esc a.
Proof.
  unfold accepted.
  rewrite (collectSelectors_run esc (fun d sel calls => calls ++ [(d, sel)])).
  apply run_record.
Qed.

(** Whatever [accept] does, [collectSelectors] applies it to the recorded
    calls, in order. *)
Lemma collectSelectors_accepted {St} esc a (accept : string -> string -> St -> St) s :
  collectSelectors esc a accept s
  = apply_calls accept (accepted esc a) s.
Proof. rewrite accepted_calls. apply collectSelectors_run. Qed.

(** ** Compound selectors *)

Lemma dotted_from classes acc :
  classes <> [] ->
  fold_left (fun r v => r +:+ "." +:+ v) classes acc
  = acc +:+ "." +:+ Js.join "." classes.
Proof.
  revert acc. induction classes as [|c rest IH]; intros acc Hne; [congruence|].
  destruct rest as [|c' rest'].
  - reflexivity.
  - change (fold_left (fun r v => r +:+ "." +:+ v) (c :: c' :: rest') acc)
      with (fold_left (fun r v => r +:+ "." +:+ v) (c' :: rest') (acc +:+ "." +:+ c)).
    rewrite IH by discriminate.
    change (Js.join "." (c :: c' :: rest')) with (c +:+ "." +:+ Js.join "." (c' :: rest')).
    now rewrite !append_assoc.
Qed.

Lemma dotted_join classes : classes <> [] -> dotted classes = "." +:+ Js.join "." classes.
Proof. intros H. unfold dotted, Js.reduce. now rewrite dotted_from. Qed.

Lemma dotted_snoc classes c : dotted classes +:+ "." +:+ c = dotted (classes ++ [c]).
Proof. unfold dotted, Js.reduce. now rewrite fold_left_app. Qed.

(** The selector of an association of several classes: the classes and the
    kind class, each preceded by a dot. *)
Lemma compound_selector classes kind :
  dotted classes +:+ "." +:+ kind = "." +:+ Js.join "." (classes ++ [kind]).
Proof. rewrite dotted_snoc. apply dotted_join. now destruct classes. Qed.

Lemma In_object_calls props k d (selector : string -> string) :
  In (k, d) props -> In (d, selector k) (object_calls (Some props) selector).
Proof.
  intros H. unfold object_calls.
  apply (in_map (fun kv => (snd kv, selector (fst kv)))) in H. exact H.
Qed.

(** *** C3 *)

(** C3: for a [fileExtensions] key whose dot-separated segments are
    [s1 ... sn] (n >= 1), [fileExtensionIcon] returns exactly the classes
    ['theia-plugin-' + escapeCSS(si. ... .sn) + '-ext-file-icon'] for
    i = 1..n in that order, followed by ['theia-plugin-ext-file-icon'], and
    [collectSelectors] passes, for the definition id of that key, the one
    compound selector made of these classes and ['theia-plugin-file-icon']. *)
Theorem C3_fileExtension_classes_and_selector
    (esc : string -> option string) (segments : list string)
    (a : PluginIconsAssociation) (exts : list (string * string)) (d : string) :
  segments <> [] ->
  Forall (fun seg => ~ contains "."%char seg) segments ->
  fileExtensions a = Some exts ->
  In (Js.join "." segments, d) exts ->
  let classes :=
    map (fun i => "theia-plugin-" +:+ escapeCSS esc (Js.join "." (drop i segments))
                    +:+ "-ext-file-icon")
      (seq 0 (length segments))
    ++ ["theia-plugin-ext-file-icon"] in
  fileExtensionIcon esc (Js.join "." segments) = classes
  /\ In (d, "." +:+ Js.join "." (classes ++ ["theia-plugin-file-icon"])) (accepted esc a).
Proof.
  intros Hne Hdots Hexts Hin classes.
  assert (Hcls : fileExtensionIcon esc (Js.join "." segments) = classes).
  { rewrite fileExtensionIcon_unfold.
    rewrite (split_join "."%char segments Hne Hdots). reflexivity. }
  split; [exact Hcls|].
  rewrite accepted_calls. unfold selector_calls. rewrite Hexts.
  do 8 (apply in_or_app; right). apply in_or_app; left.
  rewrite <- compound_selector, <- Hcls.
  apply (In_object_calls exts (Js.join "." segments) d
           (fun e => dotted (fileExtensionIcon esc e) +:+ "." +:+ fileIcon) Hin).
Qed.

(** Decides [~ contains c s] for a literal [s]. *)
Ltac absent_char :=
  let H := fresh "H" in
  unfold contains; simpl; intros H;
  repeat (destruct H as [H|H]; [discriminate H|]); exact H.

Lemma not_contains_dot_d : ~ contains "."%char "d".
Proof. absent_char. Qed.

Lemma not_contains_dot_ts : ~ contains "."%char "ts".
Proof. absent_char. Qed.

Lemma C3_witness :
  fileExtensionIcon no_CSS_escape "d.ts"
  = ["theia-plugin-d-ts-ext-file-icon"; "theia-plugin-ts-ext-file-icon";
     "theia-plugin-ext-file-icon"]
  /\ In ("_typescript_def",
         ".theia-plugin-d-ts-ext-file-icon.theia-plugin-ts-ext-file-icon"
           +:+ ".theia-plugin-ext-file-icon.theia-plugin-file-icon")
       (accepted no_CSS_escape d_ts_associations).
Proof.
  apply (C3_fileExtension_classes_and_selector no_CSS_escape ["d"; "ts"]
           d_ts_associations [("d.ts", "_typescript_def")] "_typescript_def").
  - discriminate.
  - repeat constructor; [exact not_contains_dot_d | exact not_contains_dot_ts].
  - reflexivity.
  - simpl. left. reflexivity.
Defined.

(** *** C4 *)

Example toLowerCase_latin1 :
  Js.toLowerCase (String "201" ".TS") = String "233" ".ts".
Proof. reflexivity. Qed.

(** C4: [fileNameIcon] lowercases the name; its first class is
    ['theia-plugin-' + escapeCSS(lowercased name) + '-file-name-icon']; when
    the lowercased name has no dot this is the only class, and when it has
    one, the text after the first dot is taken as the extension and the
    classes of [fileExtensionIcon] for it follow the file-name class: for the
    extension [s1. ... .sn] these are the [n] classes
    ['theia-plugin-' + escapeCSS(si. ... .sn) + '-ext-file-icon'] and then
    ['theia-plugin-ext-file-icon']. *)
Theorem C4_fileNameIcon_classes (esc : string -> option string) (fileName : string) :
  let lower := Js.toLowerCase fileName in
  let nameClass := "theia-plugin-" +:+ escapeCSS esc lower +:+ "-file-name-icon" in
  hd_error (fileNameIcon esc fileName) = Some nameClass
  /\ (~ contains "."%char lower -> fileNameIcon esc fileName = [nameClass])
  /\ (forall stem ext : string,
        lower = stem +:+ "." +:+ ext ->
        ~ contains "."%char stem ->
        fileNameIcon esc fileName = nameClass :: fileExtensionIcon esc ext)
  /\ (forall (stem : string) (segments : list string),
        lower = stem +:+ "." +:+ Js.join "." segments ->
        ~ contains "."%char stem ->
        segments <> [] ->
        Forall (fun seg => ~ contains "."%char seg) segments ->
        fileNameIcon esc fileName
        = nameClass
            :: map (fun i => "theia-plugin-"
                               +:+ escapeCSS esc (Js.join "." (drop i segments))
                               +:+ "-ext-file-icon")
                 (seq 0 (length segments))
            ++ ["theia-plugin-ext-file-icon"]).
Proof.
  intros lower nameClass.
  assert (Hext : forall stem ext : string,
             lower = stem +:+ "." +:+ ext ->
             ~ contains "."%char stem ->
             fileNameIcon esc fileName = nameClass :: fileExtensionIcon esc ext).
  { intros stem ext Hlower Hstem. unfold fileNameIcon. fold lower. fold nameClass.
    change (stem +:+ "." +:+ ext) with (stem +:+ String "."%char ext) in Hlower.
    assert (Hidx : Js.indexOf "."%char lower = Z.of_nat (String.length stem)).
    { rewrite Hlower. unfold Js.indexOf. rewrite indexOf_from_first by assumption. lia. }
    rewrite Hidx.
    replace (Z.of_nat (String.length stem) =? -1) with false
      by (symmetry; apply Z.eqb_neq; lia).
    cbn [negb]. rewrite Hlower, substr_after_first. reflexivity. }
  split; [reflexivity|]. split; [|split; [exact Hext|]].
  - intros Hno. unfold fileNameIcon. fold lower. fold nameClass.
    apply indexOf_absent in Hno. rewrite Hno. reflexivity.
  - intros stem segments Hlower Hstem Hne Hdots.
    rewrite (Hext stem _ Hlower Hstem), fileExtensionIcon_unfold.
    rewrite (split_join "."%char segments Hne Hdots). reflexivity.
Qed.

Lemma not_contains_dot_index : ~ contains "."%char "index".
Proof. absent_char. Qed.

Lemma not_contains_dot_makefile : ~ contains "."%char "makefile".
Proof. absent_char. Qed.

Lemma C4_witness :
  fileNameIcon no_CSS_escape "Index.D.ts"
  = ["theia-plugin-index-d-ts-file-name-icon"; "theia-plugin-d-ts-ext-file-icon";
     "theia-plugin-ts-ext-file-icon"; "theia-plugin-ext-file-icon"]
  /\ fileNameIcon no_CSS_escape "Makefile" = ["theia-plugin-makefile-file-name-icon"].
Proof.
  split.
  - apply (proj2 (proj2 (proj2 (C4_fileNameIcon_classes no_CSS_escape "Index.D.ts")))
             "index" ["d"; "ts"]).
    + reflexivity.
    + exact not_contains_dot_index.
    + discriminate.
    + repeat constructor; [exact not_contains_dot_d | exact not_contains_dot_ts].
  - apply (proj1 (proj2 (C4_fileNameIcon_classes no_CSS_escape "Makefile"))).
    exact not_contains_dot_makefile.
Defined.

(** *** C7 *)

Lemma In_guarded_call v d selector :
  v = Some d -> d <> "" -> In (d, selector) (guarded_call v selector).
Proof.
  intros -> Hd. unfold guarded_call.
  destruct (String.eqb_spec d ""); [contradiction | now left].
Qed.

Lemma or_else_absent v : Js.or_else None v = v.
Proof. reflexivity. Qed.

(** C7, for non-empty ids: when [rootFolder] is absent and [folder] is a non-empty
    definition id, [collectSelectors] passes that id with the selector
    ['.theia-plugin-root-folder-icon'] to [accept]; when [rootFolderExpanded]
    is absent and [folderExpanded] is a non-empty definition id, it passes
    that id with ['.theia-plugin-root-folder-expanded-icon']. *)
Theorem C7_root_folder_falls_back_to_folder
    (esc : string -> option string) (a : PluginIconsAssociation) (d : string) :
  d <> "" ->
  (rootFolder a = None -> folder a = Some d ->
   In (d, ".theia-plugin-root-folder-icon") (accepted esc a))
  /\ (rootFolderExpanded a = None -> folderExpanded a = Some d ->
      In (d, ".theia-plugin-root-folder-expanded-icon") (accepted esc a)).
Proof.
  intros Hd. rewrite accepted_calls. unfold selector_calls. split.
  - intros Hroot Hfolder. rewrite Hroot, or_else_absent.
    do 2 (apply in_or_app; right). apply in_or_app; left.
    now apply In_guarded_call.
  - intros Hroot Hfolder. rewrite Hroot, or_else_absent.
    do 3 (apply in_or_app; right). apply in_or_app; left.
    now apply In_guarded_call.
Qed.

Lemma C7_witness :
  In ("_folder", ".theia-plugin-root-folder-icon")
    (accepted no_CSS_escape (folder_associations "_folder" "_folder_open"))
  /\ In ("_folder_open", ".theia-plugin-root-folder-expanded-icon")
       (accepted no_CSS_escape (folder_associations "_folder" "_folder_open")).
Proof.
  split.
  - apply (proj1 (C7_root_folder_falls_back_to_folder no_CSS_escape
                    (folder_associations "_folder" "_folder_open") "_folder"
                    ltac:(discriminate)));
      reflexivity.
  - apply (proj2 (C7_root_folder_falls_back_to_folder no_CSS_escape
                    (folder_associations "_folder" "_folder_open") "_folder_open"
                    ltac:(discriminate)));
      reflexivity.
Defined.

(** C7, the empty id: with [rootFolder] absent and [folder] present as the
    empty string, no root-folder selector is passed for the folder's
    definition id. *)
Lemma C7_empty_folder_id_counterexample :
  rootFolder (folder_associations "" "") = None
  /\ folder (folder_associations "" "") = Some ""
  /\ ~ In ("", ".theia-plugin-root-folder-icon")
        (accepted no_CSS_escape (folder_associations "" "")).
Proof. split; [reflexivity|]. split; [reflexivity|]. intros []. Qed.

(** *** C1 *)

(** Where a [fileExtensions] object is present, each language id yields its
    selector. *)
Lemma languageIds_collected_with_fileExtensions esc a exts languages l d :
  fileExtensions a = Some exts ->
  languageIds a = Some languages ->
  In (l, d) languages ->
  In (d, "." +:+ languageIcon esc l +:+ ".theia-plugin-file-icon") (accepted esc a).
Proof.
  intros Hexts Hlangs Hin. rewrite accepted_calls. unfold selector_calls.
  rewrite Hexts, Hlangs. do 9 (apply in_or_app; right).
  apply (In_object_calls languages l d
           (fun l => "." +:+ languageIcon esc l +:+ "." +:+ fileIcon) Hin).
Qed.

(** Without a [fileExtensions] object the language ids contribute no call:
    the calls are those of the other associations. *)
Lemma languageIds_skipped_without_fileExtensions esc a :
  fileExtensions a = None ->
  accepted esc a
  = accepted esc
      {| folder := folder a; file := file a; folderExpanded := folderExpanded a;
         rootFolder := rootFolder a; rootFolderExpanded := rootFolderExpanded a;
         folderNames := folderNames a; folderNamesExpanded := folderNamesExpanded a;
         fileExtensions := None; fileNames := fileNames a; languageIds := None |}.
Proof.
  intros H. rewrite !accepted_calls. unfold selector_calls. cbn. now rewrite H.
Qed.

(** C1 at the failing document: with [languageIds] and without
    [fileExtensions], no selector is collected for the language; the same
    [languageIds] next to an empty [fileExtensions] object yield the selector
    ['.' + languageIcon(languageId) + '.theia-plugin-file-icon']. *)
Theorem C1_languageIds_skipped_without_fileExtensions :
  accepted no_CSS_escape typescript_associations = []
  /\ collectAll no_CSS_escape {[ "_ts" := svg_icon "ts.svg" ]}
       {| base := typescript_associations;
          iconDefinitions := Some {[ "_ts" := svg_icon "ts.svg" ]};
          fonts := None; light := None; highContrast := None;
          hidesExplorerArrows := None |} = []
  /\ accepted no_CSS_escape typescript_associations_with_extensions
     = [("_ts", "." +:+ languageIcon no_CSS_escape "typescript"
                  +:+ ".theia-plugin-file-icon")].
Proof. split; [reflexivity|]. split; reflexivity. Qed.

(** ** The label provider *)

Section Priorities.

Context {A : Type}.

Local Abbreviation by_priority :=
  (fun p p' : Prioritizeable.t A => Prioritizeable.priority p' <= Prioritizeable.priority p).

Lemma insert_Permutation (x : Prioritizeable.t A) ps :
  Permutation (Prioritizeable.insert x ps) (x :: ps).
Proof.
  induction ps as [|y ps IH]; simpl; [reflexivity|].
  destruct (Prioritizeable.compare x y <=? 0); [reflexivity|].
  rewrite IH. apply perm_swap.
Qed.

Lemma sort_Permutation (ps : list (Prioritizeable.t A)) :
  Permutation (Prioritizeable.sort ps) ps.
Proof.
  induction ps as [|x ps IH]; simpl; [reflexivity|].
  rewrite insert_Permutation. now constructor.
Qed.

Lemma insert_sorted (x : Prioritizeable.t A) ps :
  StronglySorted by_priority ps ->
  StronglySorted by_priority (Prioritizeable.insert x ps).
Proof.
  induction 1 as [|y ps Hsorted IH Hall]; simpl.
  - repeat constructor.
  - unfold Prioritizeable.compare.
    destruct (Z.leb_spec (Prioritizeable.priority y - Prioritizeable.priority x) 0)
      as [Hle|Hgt].
    + constructor; [now constructor|].
      constructor; [lia|].
      eapply List.Forall_impl; [|exact Hall]. simpl. intros z Hz. lia.
    + constructor; [exact IH|].
      eapply Permutation_Forall; [symmetry; apply insert_Permutation|].
      constructor; [lia | exact Hall].
Qed.

Lemma sort_sorted (ps : list (Prioritizeable.t A)) :
  StronglySorted by_priority (Prioritizeable.sort ps).
Proof.
  induction ps as [|x ps IH]; simpl; [constructor | now apply insert_sorted].
Qed.

Variable getPriority : A -> Z.

Lemma filter_toPrioritizeable (values : list A) :
  map Prioritizeable.value
    (List.filter Prioritizeable.isValid
       (Prioritizeable.toPrioritizeableSync values getPriority))
  = List.filter (fun v => 0 <? getPriority v) values.
Proof.
  unfold Prioritizeable.toPrioritizeableSync.
  induction values as [|v values IH]; simpl; [reflexivity|].
  unfold Prioritizeable.isValid at 1. simpl.
  destruct (0 <? getPriority v); simpl; now rewrite IH.
Qed.

Lemma prioritizeAllSync_Permutation (values : list A) :
  Permutation
    (map Prioritizeable.value (Prioritizeable.prioritizeAllSync values getPriority))
    (List.filter (fun v => 0 <? getPriority v) values).
Proof.
  unfold Prioritizeable.prioritizeAllSync.
  rewrite <- filter_toPrioritizeable.
  apply Permutation_map, sort_Permutation.
Qed.

Lemma prioritizeAllSync_priority (values : list A) p :
  In p (Prioritizeable.prioritizeAllSync values getPriority) ->
  Prioritizeable.priority p = getPriority (Prioritizeable.value p).
Proof.
  unfold Prioritizeable.prioritizeAllSync. intros H.
  apply (Permutation_in _ (sort_Permutation _)) in H.
  apply List.filter_In in H as [H _].
  unfold Prioritizeable.toPrioritizeableSync in H.
  apply in_map_iff in H as (v & <- & _). reflexivity.
Qed.

Lemma sorted_values (ps : list (Prioritizeable.t A)) :
  (forall p, In p ps -> Prioritizeable.priority p = getPriority (Prioritizeable.value p)) ->
  StronglySorted by_priority ps ->
  StronglySorted (fun v v' => getPriority v' <= getPriority v)
    (map Prioritizeable.value ps).
Proof.
  intros Hprio Hsorted.
  induction Hsorted as [|p ps Hsorted IH Hall]; simpl; constructor.
  - apply IH. intros q Hq. apply Hprio. now right.
  - rewrite List.Forall_forall in Hall. apply List.Forall_forall.
    intros v Hv. apply in_map_iff in Hv as (q & <- & Hq).
    rewrite <- (Hprio p) by now left. rewrite <- (Hprio q) by now right.
    now apply Hall.
Qed.

Lemma prioritizeAllSync_sorted (values : list A) :
  StronglySorted (fun v v' => getPriority v' <= getPriority v)
    (map Prioritizeable.value (Prioritizeable.prioritizeAllSync values getPriority)).
Proof.
  apply sorted_values.
  - apply prioritizeAllSync_priority.
  - apply sort_sorted.
Qed.

End Priorities.

Section Aggregation.

Context {element : Type}.
Variable contributions : list (LabelProviderContribution.t element).
Variable e : element.

Local Abbreviation rating := (fun c => LabelProviderContribution.canHandle c e).
Local Abbreviation consulted := (LabelProvider.findContribution contributions e).

Lemma findContribution_Permutation :
  Permutation consulted (List.filter (fun c => 0 <? rating c) contributions).
Proof.
  unfold LabelProvider.findContribution.
  apply (prioritizeAllSync_Permutation (fun c => rating c)).
Qed.

Lemma findContribution_sorted :
  StronglySorted (fun c c' => rating c' <= rating c) consulted.
Proof.
  unfold LabelProvider.findContribution.
  apply (prioritizeAllSync_sorted (fun c => rating c)).
Qed.

Lemma findContribution_In c :
  In c consulted <-> In c contributions /\ 0 < rating c.
Proof.
  split.
  - intros H. apply (Permutation_in _ findContribution_Permutation) in H.
    apply List.filter_In in H as [Hin Hpos]. split; [exact Hin|].
    now apply Z.ltb_lt.
  - intros [Hin Hpos].
    apply (Permutation_in _ (Permutation_sym findContribution_Permutation)).
    apply List.filter_In. split; [exact Hin | now apply Z.ltb_lt].
Qed.

Variable m : LabelProviderContribution.t element -> option (element -> option string).

Lemma first_value_first_defined l fallback :
  LabelProvider.first_value m e l fallback = default fallback (first_defined m e l).
Proof.
  unfold first_defined.
  induction l as [|c l IH]; simpl; [reflexivity|].
  destruct (LabelProvider.call (m c) e); [reflexivity | exact IH].
Qed.

Lemma first_value_fallback l fallback :
  (forall c, In c l -> LabelProvider.call (m c) e = None) ->
  LabelProvider.first_value m e l fallback = fallback.
Proof.
  induction l as [|c l IH]; intros H; simpl; [reflexivity|].
  rewrite (H c) by now left. apply IH. intros c' Hc'. apply H. now right.
Qed.

Lemma first_value_highest l fallback c v :
  StronglySorted (fun c c' => rating c' <= rating c) l ->
  In c l ->
  LabelProvider.call (m c) e = Some v ->
  (forall c', In c' l -> rating c <= rating c' ->
              c' = c \/ LabelProvider.call (m c') e = None) ->
  LabelProvider.first_value m e l fallback = v.
Proof.
  intros Hsorted. induction Hsorted as [|x l Hsorted IH Hall];
    intros Hin Hv Hothers; [destruct Hin|].
  assert (Hx : rating c <= rating x).
  { destruct Hin as [->|Hin]; [lia|].
    rewrite List.Forall_forall in Hall. now apply Hall. }
  simpl. destruct (Hothers x (or_introl eq_refl) Hx) as [->|Hnone].
  - now rewrite Hv.
  - rewrite Hnone. apply IH; [|exact Hv|].
    + destruct Hin as [->|Hin]; [congruence | exact Hin].
    + intros c' Hc'. apply Hothers. now right.
Qed.

End Aggregation.

(** *** C2 *)

(** C2: [getIcon] and [getName] consult the registered contributions whose
    [canHandle] result is greater than zero, ordered by that result with the
    highest number first, and return the first defined value produced in
    that order; so the value of a contribution is returned when every other
    contribution rated at least as high gives no value, whatever the
    contributions rated lower return. *)
Theorem C2_contributions_consulted_by_priority {element : Type}
    (contributions : list (LabelProviderContribution.t element)) (e : element) :
  let consulted := LabelProvider.findContribution contributions e in
  Permutation consulted
    (List.filter (fun c => 0 <? LabelProviderContribution.canHandle c e) contributions)
  /\ StronglySorted
       (fun c c' => LabelProviderContribution.canHandle c' e
                    <= LabelProviderContribution.canHandle c e) consulted
  /\ LabelProvider.getIcon contributions e
     = default "" (first_defined LabelProviderContribution.getIcon e consulted)
  /\ LabelProvider.getName contributions e
     = default "<unknown>" (first_defined LabelProviderContribution.getName e consulted)
  /\ (forall c v,
        In c contributions -> 0 < LabelProviderContribution.canHandle c e ->
        LabelProvider.call (LabelProviderContribution.getIcon c) e = Some v ->
        outranks_answers LabelProviderContribution.getIcon contributions e c ->
        LabelProvider.getIcon contributions e = v)
  /\ (forall c v,
        In c contributions -> 0 < LabelProviderContribution.canHandle c e ->
        LabelProvider.call (LabelProviderContribution.getName c) e = Some v ->
        outranks_answers LabelProviderContribution.getName contributions e c ->
        LabelProvider.getName contributions e = v).
Proof.
  intros consulted.
  split; [apply findContribution_Permutation|].
  split; [apply findContribution_sorted|].
  split; [apply first_value_first_defined|].
  split; [apply first_value_first_defined|].
  split; intros c v Hin Hpos Hv Hothers;
    (apply first_value_highest with (c := c);
     [ apply findContribution_sorted
     | apply findContribution_In; now split
     | exact Hv
     | intros c' Hc' Hle; apply Hothers; [|exact Hle];
       now apply findContribution_In in Hc' ]).
Qed.

(** *** C8 *)

(** C8, each method on its own answers: [getName] is defined for every
    element and returns ['<unknown>'] when no contribution with a positive
    [canHandle] result returns a defined name; [getIcon] returns the empty
    string when no such contribution returns a defined icon, and
    [getLongName] returns it when none returns a defined long name. *)
Theorem C8_label_provider_fallbacks {element : Type}
    (contributions : list (LabelProviderContribution.t element)) (e : element) :
  ((forall c, In c contributions -> 0 < LabelProviderContribution.canHandle c e ->
              LabelProvider.call (LabelProviderContribution.getName c) e = None) ->
   LabelProvider.getName contributions e = "<unknown>")
  /\ ((forall c, In c contributions -> 0 < LabelProviderContribution.canHandle c e ->
                 LabelProvider.call (LabelProviderContribution.getIcon c) e = None) ->
      LabelProvider.getIcon contributions e = "")
  /\ ((forall c, In c contributions -> 0 < LabelProviderContribution.canHandle c e ->
                 LabelProvider.call (LabelProviderContribution.getLongName c) e = None) ->
      LabelProvider.getLongName contributions e = "").
Proof.
  repeat split; intros H;
    (apply first_value_fallback; intros c Hc;
     apply findContribution_In in Hc as [Hin Hpos]; now apply H).
Qed.

Lemma C2_witness :
  LabelProvider.getIcon [sample_default; sample_service] main_ts_uri
  = "theia-plugin-file-icon theia-plugin-main-ts-file-name-icon"
      +:+ " theia-plugin-ts-ext-file-icon theia-plugin-ext-file-icon"
      +:+ " theia-plugin-typescript-lang-file-icon"
  /\ LabelProvider.getName [sample_default; sample_service] main_ts_uri = "main.ts".
Proof.
  pose proof (C2_contributions_consulted_by_priority
                [sample_default; sample_service] main_ts_uri)
    as (_ & _ & _ & _ & Hicon & Hname).
  split.
  - apply (Hicon sample_service).
    + right. left. reflexivity.
    + reflexivity.
    + reflexivity.
    + intros c' [<-|[<-|[]]] Hle.
      * vm_compute in Hle. exfalso. apply Hle. reflexivity.
      * left. reflexivity.
  - apply (Hname sample_default).
    + left. reflexivity.
    + reflexivity.
    + reflexivity.
    + intros c' [<-|[<-|[]]] Hle.
      * left. reflexivity.
      * right. reflexivity.
Defined.

Lemma C8_witness :
  LabelProvider.getName [sample_service] main_ts_uri = "<unknown>"
  /\ LabelProvider.getIcon [sample_default; sample_service] plain_object = ""
  /\ LabelProvider.getLongName [sample_service] main_ts_uri = "".
Proof.
  split; [|split].
  - apply (proj1 (C8_label_provider_fallbacks [sample_service] main_ts_uri)).
    intros c [<-|[]] _. reflexivity.
  - apply (proj1 (proj2 (C8_label_provider_fallbacks
                           [sample_default; sample_service] plain_object))).
    intros c [<-|[<-|[]]] Hpos; vm_compute in Hpos; discriminate Hpos.
  - apply (proj2 (proj2 (C8_label_provider_fallbacks [sample_service] main_ts_uri))).
    intros c [<-|[]] _. reflexivity.
Defined.

(** C8, names and icons are independent: the plugin icon theme service rates
    a file URI positively and gives an icon but no name, so no contribution
    returns a defined name, [getName] falls back to ['<unknown>'], and
    [getIcon] is not the empty string. *)
Lemma C8_icon_without_name_counterexample :
  (forall c, In c [sample_service] ->
     0 < LabelProviderContribution.canHandle c main_ts_uri ->
     LabelProvider.call (LabelProviderContribution.getName c) main_ts_uri = None)
  /\ LabelProvider.getName [sample_service] main_ts_uri = "<unknown>"
  /\ LabelProvider.getIcon [sample_service] main_ts_uri <> "".
Proof.
  split; [|split].
  - intros c [<-|[]] _. reflexivity.
  - reflexivity.
  - vm_compute. discriminate.
Qed.

(** ** The install button *)

(** *** C5 *)

(** C5: a click while [extension.busy] is set changes nothing and calls
    nothing; otherwise the handler sets [extension.busy] and calls
    [service.uninstall] on the extension when it is installed and
    [service.install] on it when it is not. *)
Theorem C5_install_button_click (s : VSCXInstallButton.State) :
  let s' := VSCXInstallButton.onClick s in
  let e := VSCXInstallButton.extension s in
  (VSCXInstallButton.busy e = true -> s' = s)
  /\ (VSCXInstallButton.busy e = false -> VSCXInstallButton.installed e = true ->
      VSCXInstallButton.busy (VSCXInstallButton.extension s') = true
      /\ VSCXInstallButton.calls s'
         = VSCXInstallButton.calls s
           ++ [VSCXInstallButton.uninstall (VSCXInstallButton.extension s')])
  /\ (VSCXInstallButton.busy e = false -> VSCXInstallButton.installed e = false ->
      VSCXInstallButton.busy (VSCXInstallButton.extension s') = true
      /\ VSCXInstallButton.calls s'
         = VSCXInstallButton.calls s
           ++ [VSCXInstallButton.install (VSCXInstallButton.extension s')]).
Proof.
  intros s' e. subst s' e. unfold VSCXInstallButton.onClick.
  split; [|split].
  - intros ->. reflexivity.
  - intros -> ->. split; reflexivity.
  - intros -> ->. split; reflexivity.
Qed.

Lemma C5_witness :
  VSCXInstallButton.onClick (button_state true true) = button_state true true
  /\ VSCXInstallButton.calls (VSCXInstallButton.onClick (button_state true false))
     = [VSCXInstallButton.uninstall
          {| VSCXInstallButton.installed := true; VSCXInstallButton.busy := true;
             VSCXInstallButton.outdated := false |}]
  /\ VSCXInstallButton.calls (VSCXInstallButton.onClick (button_state false false))
     = [VSCXInstallButton.install
          {| VSCXInstallButton.installed := false; VSCXInstallButton.busy := true;
             VSCXInstallButton.outdated := false |}].
Proof.
  split; [|split].
  - apply (proj1 (C5_install_button_click (button_state true true))). reflexivity.
  - apply (proj1 (proj2 (C5_install_button_click (button_state true false))));
      reflexivity.
  - apply (proj2 (proj2 (C5_install_button_click (button_state false false))));
      reflexivity.
Defined.

(** ** The plugin icon theme service *)

Lemma instanceof_PluginIconTheme_spec current :
  PluginIconThemeService.instanceof_PluginIconTheme current = true
  <-> is_plugin_theme current.
Proof.
  unfold is_plugin_theme. destruct current as [[t|other]|]; simpl.
  - split; [eauto | reflexivity].
  - split; [discriminate | intros [t H]; discriminate H].
  - split; [discriminate | intros [t H]; discriminate H].
Qed.

Lemma file_like_spec element :
  (PluginIconThemeService.is_file_URI element || isFileStat element
   || isFileStatNode element)%bool = true
  <-> is_file_like element.
Proof.
  unfold is_file_like, PluginIconThemeService.is_file_URI.
  rewrite !Bool.orb_true_iff.
  assert (Huri : match uriScheme element with
                 | Some scheme => String.eqb scheme "file"
                 | None => false
                 end = true <-> uriScheme element = Some "file").
  { destruct (uriScheme element) as [scheme|].
    - rewrite String.eqb_eq. split; [now intros -> | now intros [= ->]].
    - split; discriminate. }
  rewrite Huri. tauto.
Qed.

Lemma MAX_SAFE_INTEGER_value : MAX_SAFE_INTEGER = 9007199254740991.
Proof. reflexivity. Qed.

(** *** C6 *)

(** C6: [canHandle] returns [Number.MAX_SAFE_INTEGER] exactly when the
    definition of the selected icon theme is a [PluginIconTheme] and the
    element is a URI with scheme [file], a [FileStat] or a [FileStatNode],
    and 0 in every other case; [getIcon] returns [undefined] whenever the
    current theme is not a [PluginIconTheme]. *)
Theorem C6_service_canHandle_getIcon
    (esc : string -> option string) (getName : Element -> string)
    (languageOf : string -> string)
    (current : option IconThemeDefinition) (element : Element) :
  (PluginIconThemeService.canHandle current element = MAX_SAFE_INTEGER
   <-> is_plugin_theme current /\ is_file_like element)
  /\ (PluginIconThemeService.canHandle current element = 0
      <-> ~ (is_plugin_theme current /\ is_file_like element))
  /\ (~ is_plugin_theme current ->
      PluginIconThemeService.getIcon esc getName languageOf current element = None)
  /\ MAX_SAFE_INTEGER = 2 ^ 53 - 1.
Proof.
  rewrite <- instanceof_PluginIconTheme_spec, <- file_like_spec.
  rewrite <- Bool.andb_true_iff.
  unfold PluginIconThemeService.canHandle.
  split; [|split; [|split]].
  - destruct (_ && _)%bool; [tauto|].
    split; [rewrite MAX_SAFE_INTEGER_value; discriminate | discriminate].
  - destruct (_ && _)%bool.
    + split; [rewrite MAX_SAFE_INTEGER_value; discriminate | intros H; now elim H].
    + split; [discriminate | reflexivity].
  - intros Hnot. unfold PluginIconThemeService.getIcon.
    destruct current as [[t|other]|]; [|reflexivity|reflexivity].
    exfalso. apply Hnot. reflexivity.
  - reflexivity.
Qed.

Lemma C6_witness :
  PluginIconThemeService.canHandle (Some (IsPluginIconTheme sample_theme)) main_ts_uri
  = MAX_SAFE_INTEGER
  /\ PluginIconThemeService.canHandle (Some (IsPluginIconTheme sample_theme)) plain_object
     = 0
  /\ PluginIconThemeService.getIcon no_CSS_escape (fun _ => "main.ts")
       (fun _ => "typescript") (Some (OtherIconTheme "none")) main_ts_uri = None.
Proof.
  split; [|split].
  - apply (proj1 (C6_service_canHandle_getIcon no_CSS_escape (fun _ => "main.ts")
                    (fun _ => "typescript") (Some (IsPluginIconTheme sample_theme))
                    main_ts_uri)).
    split; [exists sample_theme; reflexivity | left; reflexivity].
  - apply (proj1 (proj2 (C6_service_canHandle_getIcon no_CSS_escape
                           (fun _ => "main.ts") (fun _ => "typescript")
                           (Some (IsPluginIconTheme sample_theme)) plain_object))).
    intros [_ [H|[H|H]]]; discriminate H.
  - apply (proj1 (proj2 (proj2 (C6_service_canHandle_getIcon no_CSS_escape
                                   (fun _ => "main.ts") (fun _ => "typescript")
                                   (Some (OtherIconTheme "none")) main_ts_uri)))).
    intros [t H]. discriminate H.
Defined.

(** ** [load] *)

Section LoadProperties.

Variable CSS_escape : string -> option string.
Variable relativePath : string -> string -> string -> option string.
Variable encodeURIComponent : string -> string.
Variable resolveContent : string -> option string.
Variable parse : string -> option PluginIconThemeDocument.

Local Abbreviation load_theme :=
  (load CSS_escape relativePath encodeURIComponent resolveContent parse).

Lemma load_loaded st :
  styleSheetContent (theme st) <> None -> load_theme st = (Fulfilled, st).
Proof.
  intros H. unfold load.
  destruct (styleSheetContent (theme st)); [reflexivity | congruence].
Qed.

Lemma load_sets_styleSheetContent st :
  styleSheetContent (theme (snd (load_theme st))) <> None.
Proof.
  unfold load.
  destruct (styleSheetContent (theme st)) eqn:E; [simpl; congruence|].
  destruct (resolveContent _) as [content|]; [|simpl; congruence].
  destruct (parse content) as [json|]; [|simpl; congruence].
  destruct (iconDefinitions json); simpl; congruence.
Qed.

End LoadProperties.

(** *** C9 *)

(** C9: once [styleSheetContent] is defined, [load] returns at once: it
    fulfils without a call of [resolveContent] and leaves the style sheet and
    every other field of the theme as they were; and every call of [load]
    leaves [styleSheetContent] defined, so that [load] after [load] changes
    nothing. *)
Theorem C9_load_idempotent
    (esc : string -> option string)
    (relativePath : string -> string -> string -> option string)
    (encodeURIComponent : string -> string)
    (resolveContent : string -> option string)
    (parse : string -> option PluginIconThemeDocument) (st : LoadState) :
  let load := load esc relativePath encodeURIComponent resolveContent parse in
  (styleSheetContent (theme st) <> None -> load st = (Fulfilled, st))
  /\ styleSheetContent (theme (snd (load st))) <> None
  /\ load (snd (load st)) = (Fulfilled, snd (load st)).
Proof.
  intros ld. subst ld. split; [apply load_loaded|].
  split; [apply load_sets_styleSheetContent|].
  apply load_loaded, load_sets_styleSheetContent.
Qed.

Example sample_load_once :
  sample_load unloaded
  = (Fulfilled,
     {| theme :=
          set_styleSheetContent sample_theme
            (Some (".theia-plugin-folder-icon, .theia-plugin-root-folder-icon {" +:+ nl
                   +:+ "    display: inline-block;" +:+ nl
                   +:+ "    width: 16px;" +:+ nl
                   +:+ "    height: 16px;" +:+ nl
                   +:+ "    background-size: 16px;" +:+ nl
                   +:+ "    background-image: url('hostedPlugin/vendor.icons/folder.svg');"
                   +:+ nl +:+ "}" +:+ nl
                   +:+ ".theia-plugin-ts-ext-file-icon.theia-plugin-ext-file-icon"
                   +:+ ".theia-plugin-file-icon, "
                   +:+ ".theia-plugin-typescript-lang-file-icon.theia-plugin-file-icon {"
                   +:+ nl
                   +:+ "    display: inline-block;" +:+ nl
                   +:+ "    width: 16px;" +:+ nl
                   +:+ "    height: 16px;" +:+ nl
                   +:+ "    background-size: 16px;" +:+ nl
                   +:+ "    background-image: url('hostedPlugin/vendor.icons/ts.svg');"
                   +:+ nl +:+ "}" +:+ nl));
        resolved := ["file:///plugins/icons/sample.json"] |}).
Proof. vm_compute. reflexivity. Qed.

Lemma C9_witness :
  sample_load (snd (sample_load unloaded)) = (Fulfilled, snd (sample_load unloaded))
  /\ resolved (snd (sample_load (snd (sample_load unloaded))))
     = ["file:///plugins/icons/sample.json"].
Proof.
  split.
  - apply (proj1 (C9_load_idempotent no_CSS_escape sample_relativePath
                    sample_encodeURIComponent sample_resolveContent sample_parse
                    (snd (sample_load unloaded)))).
    vm_compute. discriminate.
  - unfold sample_load.
    rewrite (proj2 (proj2 (C9_load_idempotent no_CSS_escape sample_relativePath
                             sample_encodeURIComponent sample_resolveContent
                             sample_parse unloaded))).
    vm_compute. reflexivity.
Defined.

(** ** Selectors and rules exist for defined icons only *)

Lemma JsMap_get_set {V} k k' (v : V) m :
  JsMap.get k (JsMap.set k' v m) = if String.eqb k' k then Some v else JsMap.get k m.
Proof.
  induction m as [|[k0 v0] m IH]; simpl.
  - reflexivity.
  - destruct (String.eqb_spec k0 k') as [->|Hne]; simpl.
    + destruct (String.eqb k' k); reflexivity.
    + rewrite IH. destruct (String.eqb_spec k0 k) as [->|Hne'].
      * destruct (String.eqb_spec k' k) as [->|_]; [congruence | reflexivity].
      * reflexivity.
Qed.

Lemma JsMap_get_None {V} k (m : list (string * V)) :
  JsMap.get k m = None <-> ~ In k (JsMap.keys m).
Proof.
  induction m as [|[k0 v0] m IH]; simpl.
  - tauto.
  - destruct (String.eqb_spec k0 k) as [->|Hne].
    + split; [discriminate | intros H; exfalso; apply H; now left].
    + rewrite IH. tauto.
Qed.

Section DefinedIcons.

Variable iconDefinitions : gmap string PluginIconDefinition.

(** [iconDefinitions[d]] is [undefined] exactly for the ids that are neither
    own nor inherited. *)
Lemma index_iconDefinitions_None d :
  index_iconDefinitions iconDefinitions d = None
  <-> iconDefinitions !! d = None /\ ~ In d Object_prototype.
Proof.
  unfold index_iconDefinitions. destruct (iconDefinitions !! d) eqn:E.
  - split; [discriminate | intros [H _]; discriminate H].
  - destruct (existsb (String.eqb d) Object_prototype) eqn:Hin.
    + split; [discriminate|]. intros [_ Hnot]. exfalso. apply Hnot.
      apply existsb_exists in Hin as (x & Hx & Heq).
      apply String.eqb_eq in Heq. now subst.
    + split; [|reflexivity]. intros _. split; [reflexivity|]. intros Hd.
      assert (existsb (String.eqb d) Object_prototype = true); [|congruence].
      apply existsb_exists. exists d. split; [exact Hd | apply String.eqb_refl].
Qed.

Lemma index_iconDefinitions_own d :
  is_Some (iconDefinitions !! d) -> is_Some (index_iconDefinitions iconDefinitions d).
Proof. intros [def H]. unfold index_iconDefinitions. rewrite H. eauto. Qed.

(** Every key of the map is an id for which [iconDefinitions[d]] is defined. *)
Local Abbreviation keys_defined :=
  (fun m : list (string * list string) =>
     forall d, index_iconDefinitions iconDefinitions d = None -> JsMap.get d m = None).

Lemma acceptSelector_undefined themeType d selector m :
  index_iconDefinitions iconDefinitions d = None ->
  acceptSelector iconDefinitions themeType d selector m = m.
Proof. intros H. unfold acceptSelector. now rewrite H. Qed.

Lemma acceptSelector_keys_defined themeType d selector m :
  keys_defined m -> keys_defined (acceptSelector iconDefinitions themeType d selector m).
Proof.
  intros Hm d' Hd'. unfold acceptSelector.
  destruct (index_iconDefinitions iconDefinitions d) eqn:E; [|now apply Hm].
  rewrite JsMap_get_set.
  destruct (String.eqb_spec d d') as [->|_]; [congruence | now apply Hm].
Qed.

Lemma apply_calls_keys_defined themeType calls m :
  keys_defined m ->
  keys_defined (apply_calls (acceptSelector iconDefinitions themeType) calls m).
Proof.
  revert m. unfold apply_calls.
  induction calls as [|c calls IH]; intros m Hm; simpl; [exact Hm|].
  apply IH. now apply acceptSelector_keys_defined.
Qed.

Lemma collectAll_keys_defined esc json :
  keys_defined (collectAll esc iconDefinitions json).
Proof.
  unfold collectAll. rewrite !collectSelectors_accepted.
  assert (H0 : keys_defined
                 (apply_calls (acceptSelector iconDefinitions Dark)
                    (accepted esc (base json)) [])).
  { apply apply_calls_keys_defined. intros d _. reflexivity. }
  assert (H1 : keys_defined
                 match light json with
                 | Some l =>
                     collectSelectors esc l (acceptSelector iconDefinitions Light)
                       (apply_calls (acceptSelector iconDefinitions Dark)
                          (accepted esc (base json)) [])
                 | None =>
                     apply_calls (acceptSelector iconDefinitions Dark)
                       (accepted esc (base json)) []
                 end).
  { destruct (light json); [|exact H0].
    rewrite collectSelectors_accepted. now apply apply_calls_keys_defined. }
  destruct (highContrast json); [|exact H1].
  rewrite collectSelectors_accepted. now apply apply_calls_keys_defined.
Qed.

Variable relativePath : string -> string -> string -> option string.
Variable encodeURIComponent : string -> string.
Variable t : PluginIconTheme.

(** An id that is not an own key of [iconDefinitions] gets no rule: an
    inherited property has neither an icon path nor a font glyph. *)
Lemma rulesFor_undefined m d :
  iconDefinitions !! d = None ->
  rulesFor relativePath encodeURIComponent t iconDefinitions m d = [].
Proof.
  intros H. unfold rulesFor, index_iconDefinitions. rewrite H.
  destruct (JsMap.get d m); [|reflexivity].
  now destruct (existsb (String.eqb d) Object_prototype).
Qed.

Lemma rulesFor_defined m d rule :
  In rule (rulesFor relativePath encodeURIComponent t iconDefinitions m d) ->
  is_Some (iconDefinitions !! d) /\ is_Some (JsMap.get d m).
Proof.
  destruct (iconDefinitions !! d) as [def|] eqn:E.
  - unfold rulesFor. destruct (JsMap.get d m); [|intros []].
    intros _. split; eauto.
  - now rewrite rulesFor_undefined.
Qed.

Lemma emittedRules_In m d rule :
  In (d, rule) (emittedRules relativePath encodeURIComponent t iconDefinitions m)
  <-> In d (JsMap.keys m)
      /\ In rule (rulesFor relativePath encodeURIComponent t iconDefinitions m d).
Proof.
  unfold emittedRules. rewrite in_flat_map. split.
  - intros (d' & Hd' & Hin). apply in_map_iff in Hin as (r & [= <- <-] & Hr).
    now split.
  - intros [Hd Hr]. exists d. split; [exact Hd|].
    apply in_map_iff. now exists rule.
Qed.

Lemma concat_cons rule rules :
  String.concat "" (rule :: rules) = rule +:+ String.concat "" rules.
Proof. destruct rules; simpl; [now rewrite append_nil_r | reflexivity]. Qed.

Lemma append_rules rules css :
  fold_left String.append rules css = css +:+ String.concat "" rules.
Proof.
  revert css. induction rules as [|r rules IH]; intros css.
  - simpl. now rewrite append_nil_r.
  - rewrite concat_cons. simpl. rewrite IH. now rewrite append_assoc.
Qed.

Lemma concat_app rules1 rules2 :
  String.concat "" (rules1 ++ rules2)
  = String.concat "" rules1 +:+ String.concat "" rules2.
Proof.
  induction rules1 as [|r rules1 IH]; [reflexivity|].
  rewrite <- app_comm_cons, !concat_cons, IH. now rewrite append_assoc.
Qed.

(** The loop appends the emitted rules to the style sheet, in order. *)
Lemma emitRules_emittedRules m css :
  emitRules relativePath encodeURIComponent t iconDefinitions m css
  = css +:+ String.concat ""
              (map snd (emittedRules relativePath encodeURIComponent t
                          iconDefinitions m)).
Proof.
  unfold emitRules, emittedRules.
  generalize (JsMap.keys m) as ks. intros ks. revert css.
  induction ks as [|k ks IH]; intros css; simpl.
  - now rewrite append_nil_r.
  - rewrite IH, append_rules, map_app, concat_app, map_map. simpl.
    rewrite map_id. now rewrite append_assoc.
Qed.

End DefinedIcons.

Lemma load_styleSheet esc relativePath encodeURIComponent resolveContent parse
    st content json defs :
  styleSheetContent (theme st) = None ->
  resolveContent (uri (theme st)) = Some content ->
  parse content = Some json ->
  iconDefinitions json = Some defs ->
  let t := set_styleSheetContent (theme st) (Some "") in
  styleSheetContent
    (theme (snd (load esc relativePath encodeURIComponent resolveContent parse st)))
  = Some (emitFonts relativePath encodeURIComponent t (fonts json) ""
          +:+ String.concat ""
                (map snd (emittedRules relativePath encodeURIComponent t defs
                            (collectAll esc defs json)))).
Proof.
  intros Hnone Hcontent Hjson Hdefs t. unfold load.
  rewrite Hnone. cbn [uri set_styleSheetContent].
  rewrite Hcontent, Hjson, Hdefs. cbn [snd theme styleSheetContent set_styleSheetContent].
  now rewrite emitRules_emittedRules.
Qed.

(** *** C10 *)

(** C10, with the inherited names set apart: [acceptSelector] records
    nothing for a definition id that is neither a key of [iconDefinitions]
    nor a name every object inherits; so after the dark, light and
    high-contrast associations are collected, such an id has left no
    selector; an association that names an icon absent from
    [iconDefinitions] gives no rule, every rule the loop over
    [definitionSelectors] emits is for a key of [iconDefinitions], and these
    rules, appended in order, are what [load] adds to the style sheet after
    the font rules. *)
Theorem C10_rules_only_for_defined_icons
    (esc : string -> option string)
    (relativePath : string -> string -> string -> option string)
    (encodeURIComponent : string -> string)
    (t : PluginIconTheme) (json : PluginIconThemeDocument)
    (defs : gmap string PluginIconDefinition) :
  let definitionSelectors := collectAll esc defs json in
  let rules := emittedRules relativePath encodeURIComponent t defs definitionSelectors in
  (forall themeType d selector m,
     defs !! d = None -> ~ In d Object_prototype ->
     acceptSelector defs themeType d selector m = m)
  /\ (forall d, defs !! d = None ->
        (~ In d Object_prototype -> ~ In d (JsMap.keys definitionSelectors))
        /\ forall rule, ~ In (d, rule) rules)
  /\ (forall d rule, In (d, rule) rules -> is_Some (defs !! d))
  /\ (forall css,
        emitRules relativePath encodeURIComponent t defs definitionSelectors css
        = css +:+ String.concat "" (map snd rules))
  /\ (forall resolveContent parse st content,
        styleSheetContent (theme st) = None ->
        resolveContent (uri (theme st)) = Some content ->
        parse content = Some json ->
        iconDefinitions json = Some defs ->
        t = set_styleSheetContent (theme st) (Some "") ->
        styleSheetContent
          (theme (snd (load esc relativePath encodeURIComponent resolveContent parse st)))
        = Some (emitFonts relativePath encodeURIComponent t (fonts json) ""
                +:+ String.concat "" (map snd rules))).
Proof.
  intros definitionSelectors rules.
  split.
  { intros themeType d selector m Hd Hnot.
    apply acceptSelector_undefined, index_iconDefinitions_None. now split. }
  split.
  { intros d Hd. split.
    - intros Hnot. apply JsMap_get_None, collectAll_keys_defined.
      apply index_iconDefinitions_None. now split.
    - intros rule Hin. apply emittedRules_In in Hin as [_ Hin].
      rewrite rulesFor_undefined in Hin by exact Hd. destruct Hin. }
  split.
  { intros d rule Hin. apply emittedRules_In in Hin as [_ Hin].
    now apply rulesFor_defined in Hin as [H _]. }
  split; [apply emitRules_emittedRules|].
  intros resolveContent parse st content Hnone Hcontent Hjson Hdefs ->.
  now apply load_styleSheet with (content := content).
Qed.

Lemma not_inherited_missing : ~ In "_missing" Object_prototype.
Proof.
  unfold Object_prototype. simpl. intros H.
  repeat (destruct H as [H|H]; [discriminate H|]). exact H.
Qed.

Lemma C10_witness :
  ~ In "_missing" (JsMap.keys (collectAll no_CSS_escape sample_definitions sample_document))
  /\ (forall rule,
        ~ In ("_missing", rule)
            (emittedRules sample_relativePath sample_encodeURIComponent sample_theme
               sample_definitions
               (collectAll no_CSS_escape sample_definitions sample_document)))
  /\ In ("cobol", "_missing") (default [] (languageIds (base sample_document))).
Proof.
  assert (Hmissing : sample_definitions !! "_missing" = None)
    by (vm_compute; reflexivity).
  split; [|split].
  - apply (proj1 (proj1 (proj2 (C10_rules_only_for_defined_icons no_CSS_escape
                                  sample_relativePath sample_encodeURIComponent
                                  sample_theme sample_document sample_definitions))
                    "_missing" Hmissing)).
    exact not_inherited_missing.
  - apply (proj2 (proj1 (proj2 (C10_rules_only_for_defined_icons no_CSS_escape
                                  sample_relativePath sample_encodeURIComponent
                                  sample_theme sample_document sample_definitions))
                    "_missing" Hmissing)).
  - simpl. right. left. reflexivity.
Defined.

(** C10, an inherited name: [toString] is no key of an empty
    [iconDefinitions], yet [iconDefinitions['toString']] is the inherited
    function, and [acceptSelector] records the selector of an association
    that names it. *)
Lemma C10_inherited_name_counterexample :
  (∅ : gmap string PluginIconDefinition) !! "toString" = None
  /\ acceptSelector ∅ Dark "toString" ".theia-plugin-folder-icon" []
     = [("toString", [".theia-plugin-folder-icon"])]
  /\ JsMap.keys
       (collectAll no_CSS_escape ∅
          {| base := folder_associations "toString" "constructor";
             iconDefinitions := Some ∅; fonts := None; light := None;
             highContrast := None; hidesExplorerArrows := None |})
     = ["toString"; "constructor"].
Proof. split; [reflexivity|]. split; vm_compute; reflexivity. Qed.

(** * Further properties of the sources *)

(** ** [escapeCSS] without [CSS.escape] *)

Lemma replace_unsafe_safe value :
  Forall (fun c => safe_char c = true) (list_ascii_of_string (replace_unsafe value)).
Proof.
  induction value as [|c value IH]; simpl; constructor; [|exact IH].
  fold (safe_char c). destruct (safe_char c) eqn:E; [exact E | reflexivity].
Qed.

Lemma replace_unsafe_length value :
  String.length (replace_unsafe value) = String.length value.
Proof. induction value as [|c value IH]; simpl; [reflexivity | now rewrite IH]. Qed.

(** X1: where the browser has no [CSS.escape], the escaped value consists of
    dashes, letters and digits only, does not start with a digit, and is at
    most one character longer than the value. *)
Theorem escapeCSS_fallback_is_identifier (esc : string -> option string) (value : string) :
  esc value = None ->
  Forall (fun c => safe_char c = true) (list_ascii_of_string (escapeCSS esc value))
  /\ (forall c rest, escapeCSS esc value = String c rest -> is_digit c = false)
  /\ (String.length value <= String.length (escapeCSS esc value)
      <= S (String.length value))%nat.
Proof.
  intros Hesc. unfold escapeCSS. rewrite Hesc.
  pose proof (replace_unsafe_safe value) as Hsafe.
  pose proof (replace_unsafe_length value) as Hlen.
  destruct (replace_unsafe value) as [|c rest] eqn:E.
  - split; [constructor|]. split; [discriminate|]. rewrite <- Hlen. simpl. lia.
  - destruct (is_digit c || is_dash c)%bool eqn:Hc.
    + split; [constructor; [reflexivity | exact Hsafe]|].
      split; [intros c' rest' [= <- _]; reflexivity|].
      rewrite <- Hlen. simpl. lia.
    + split; [exact Hsafe|]. split.
      * intros c' rest' [= <- _]. now apply Bool.orb_false_iff in Hc as [Hd _].
      * rewrite <- Hlen. simpl. lia.
Qed.

Lemma escapeCSS_fallback_is_identifier_witness :
  escapeCSS no_CSS_escape "2nd file.ts" = "-2nd-file-ts"
  /\ Forall (fun c => safe_char c = true)
       (list_ascii_of_string (escapeCSS no_CSS_escape "2nd file.ts")).
Proof.
  split; [reflexivity|].
  apply (proj1 (escapeCSS_fallback_is_identifier no_CSS_escape "2nd file.ts" eq_refl)).
Defined.

(** ** Extension classes of longer extensions *)

Lemma join_cons sep (seg seg' : string) rest :
  Js.join sep (seg :: seg' :: rest) = seg +:+ sep +:+ Js.join sep (seg' :: rest).
Proof. reflexivity. Qed.

Lemma Forall_dot_free_app (pre suf : list string) :
  Forall (fun seg => ~ contains "."%char seg) (pre ++ suf) ->
  Forall (fun seg => ~ contains "."%char seg) suf.
Proof. intros H. apply List.Forall_app in H. tauto. Qed.

(** The classes of [seg.rest] are the class of the whole extension followed
    by the classes of [rest]. *)
Lemma fileExtensionIcon_cons esc (seg : string) (rest : list string) :
  rest <> [] ->
  Forall (fun s => ~ contains "."%char s) (seg :: rest) ->
  fileExtensionIcon esc (Js.join "." (seg :: rest))
  = ("theia-plugin-" +:+ escapeCSS esc (Js.join "." (seg :: rest)) +:+ "-ext-file-icon")
      :: fileExtensionIcon esc (Js.join "." rest).
Proof.
  intros Hne Hall.
  rewrite !fileExtensionIcon_unfold.
  rewrite (split_join "."%char (seg :: rest)) by (assumption || discriminate).
  rewrite (split_join "."%char rest Hne) by (now apply List.Forall_inv_tail in Hall).
  cbn [length seq map app drop]. f_equal. f_equal.
  rewrite <- seq_shift, map_map. reflexivity.
Qed.

Lemma fileExtensionIcon_app esc (pre suf : list string) :
  suf <> [] ->
  Forall (fun seg => ~ contains "."%char seg) (pre ++ suf) ->
  exists front,
    length front = length pre
    /\ fileExtensionIcon esc (Js.join "." (pre ++ suf))
       = front ++ fileExtensionIcon esc (Js.join "." suf).
Proof.
  intros Hne. induction pre as [|seg pre IH]; intros Hall.
  - exists []. split; reflexivity.
  - destruct (IH (List.Forall_inv_tail Hall)) as (front & Hlen & Hfront).
    eexists (_ :: front). split; [simpl; now rewrite Hlen|].
    change ((seg :: pre) ++ suf) with (seg :: (pre ++ suf)).
    rewrite fileExtensionIcon_cons; [|now destruct pre, suf | exact Hall].
    now rewrite Hfront.
Qed.

(** X2: the classes of a file extension end with the classes of each of its
    shorter extensions: for dot-free segments, the classes of
    [pre.suf] are one class for each segment of [pre] followed by exactly the
    classes of [suf]. *)
Theorem fileExtensionIcon_ends_with_shorter_extension
    (esc : string -> option string) (pre suf : list string) :
  suf <> [] ->
  Forall (fun seg => ~ contains "."%char seg) (pre ++ suf) ->
  exists front,
    length front = length pre
    /\ fileExtensionIcon esc (Js.join "." (pre ++ suf))
       = front ++ fileExtensionIcon esc (Js.join "." suf).
Proof. apply fileExtensionIcon_app. Qed.

Lemma fileExtensionIcon_ends_with_shorter_extension_witness :
  exists front,
    length front = 1%nat
    /\ fileExtensionIcon no_CSS_escape "d.ts"
       = front ++ fileExtensionIcon no_CSS_escape "ts".
Proof.
  apply (fileExtensionIcon_ends_with_shorter_extension no_CSS_escape ["d"] ["ts"]).
  - discriminate.
  - repeat constructor; [exact not_contains_dot_d | exact not_contains_dot_ts].
Defined.

(** ** Collected selectors and the classes of elements

    Where the browser has no [CSS.escape], class names are made of dashes,
    letters and digits, and a selector is read off at its dots. *)

Lemma lower_char_idempotent c : Js.lower_char (Js.lower_char c) = Js.lower_char c.
Proof. destruct c as [[] [] [] [] [] [] [] []]; reflexivity. Qed.

Lemma toLowerCase_idempotent s : Js.toLowerCase (Js.toLowerCase s) = Js.toLowerCase s.
Proof.
  induction s as [|c s IH]; simpl; [reflexivity|].
  now rewrite IH, lower_char_idempotent.
Qed.








Section Fallback.

Variable esc : string -> option string.

(** The browser has no [CSS.escape]. *)
Hypothesis no_escape : forall value, esc value = None.








End Fallback.




Example selector_applies_main_ts :
  selector_applies
    ".theia-plugin-ts-ext-file-icon.theia-plugin-ext-file-icon.theia-plugin-file-icon"
    (getFileIcon no_CSS_escape displayName_provider typescript_mode main_ts_uri
       "file:///project/main.ts") = true
  /\ selector_applies
       ".theia-plugin-js-ext-file-icon.theia-plugin-ext-file-icon.theia-plugin-file-icon"
       (getFileIcon no_CSS_escape displayName_provider typescript_mode main_ts_uri
          "file:///project/main.ts") = false.
Proof. split; reflexivity. Qed.





(** ** The [definitionSelectors] map *)

Lemma JsMap_keys_set {V} k (v : V) m k' :
  In k' (JsMap.keys (JsMap.set k v m)) <-> k' = k \/ In k' (JsMap.keys m).
Proof.
  induction m as [|[k0 v0] m IH]; simpl.
  - intuition.
  - destruct (String.eqb_spec k0 k) as [->|Hne]; simpl; [intuition|].
    rewrite IH. intuition.
Qed.

Lemma JsMap_NoDup_set {V} k (v : V) m :
  List.NoDup (JsMap.keys m) -> List.NoDup (JsMap.keys (JsMap.set k v m)).
Proof.
  induction m as [|[k0 v0] m IH]; simpl; intros Hnd.
  - constructor; [intros [] | constructor].
  - apply List.NoDup_cons_iff in Hnd as [Hnotin Hnd].
    destruct (String.eqb_spec k0 k) as [->|Hne]; simpl.
    + apply List.NoDup_cons_iff. now split.
    + apply List.NoDup_cons_iff. split; [|now apply IH].
      rewrite JsMap_keys_set. intros [->|H]; [congruence | contradiction].
Qed.

Section Recorded.

Variable defs : gmap string PluginIconDefinition.
Variable themeType : ThemeType.

Local Abbreviation record := (apply_calls (acceptSelector defs themeType)).

Lemma acceptSelector_get d' selector m d :
  is_Some (index_iconDefinitions defs d') ->
  JsMap.get d (acceptSelector defs themeType d' selector m)
  = if String.eqb d' d
    then Some (default [] (JsMap.get d m) ++ [themed themeType selector])
    else JsMap.get d m.
Proof.
  intros [def Hdef]. unfold acceptSelector. rewrite Hdef, JsMap_get_set.
  destruct (String.eqb_spec d' d) as [->|_]; [|reflexivity].
  now destruct themeType.
Qed.

Lemma record_get calls m d :
  is_Some (index_iconDefinitions defs d) ->
  default [] (JsMap.get d (record calls m))
  = default [] (JsMap.get d m) ++ map (themed themeType) (selectors_of d calls).
Proof.
  intros Hd. revert m. unfold apply_calls, selectors_of.
  induction calls as [|[d' sel] calls IH]; intros m; simpl.
  - now rewrite app_nil_r.
  - rewrite IH. destruct (String.eqb_spec d' d) as [->|Hne].
    + rewrite acceptSelector_get by exact Hd. rewrite String.eqb_refl. simpl.
      now rewrite <- List.app_assoc.
    + destruct (index_iconDefinitions defs d') eqn:E.
      * rewrite acceptSelector_get by eauto.
        destruct (String.eqb_spec d' d); [contradiction | reflexivity].
      * now rewrite acceptSelector_undefined.
Qed.

Lemma acceptSelector_keys d' selector m d :
  In d (JsMap.keys (acceptSelector defs themeType d' selector m))
  <-> In d (JsMap.keys m) \/ (d = d' /\ is_Some (index_iconDefinitions defs d')).
Proof.
  unfold acceptSelector. destruct (index_iconDefinitions defs d') eqn:E.
  - rewrite JsMap_keys_set. split.
    + intros [->|H]; [right; split; eauto | now left].
    + intros [H|[-> _]]; [now right | now left].
  - split; [now left|]. intros [H|[_ [x Hx]]]; [exact H | discriminate Hx].
Qed.

Lemma record_keys calls m d :
  In d (JsMap.keys (record calls m))
  <-> In d (JsMap.keys m)
      \/ (is_Some (index_iconDefinitions defs d)
          /\ exists selector, In (d, selector) calls).
Proof.
  revert m. unfold apply_calls.
  induction calls as [|[d' sel] calls IH]; intros m; simpl.
  - split; [now left|]. intros [H|[_ [sel []]]]. exact H.
  - rewrite IH, acceptSelector_keys. split.
    + intros [[H|[-> Hd]]|[Hd [s Hs]]].
      * now left.
      * right. split; [exact Hd|]. exists sel. now left.
      * right. split; [exact Hd|]. exists s. now right.
    + intros [H|[Hd [s [[= -> ->]|Hs]]]].
      * left. now left.
      * left. right. now split.
      * right. split; [exact Hd|]. now exists s.
Qed.

Lemma acceptSelector_NoDup d' selector m :
  List.NoDup (JsMap.keys m) ->
  List.NoDup (JsMap.keys (acceptSelector defs themeType d' selector m)).
Proof.
  intros H. unfold acceptSelector.
  destruct (index_iconDefinitions defs d'); [now apply JsMap_NoDup_set | exact H].
Qed.

Lemma record_NoDup calls m :
  List.NoDup (JsMap.keys m) -> List.NoDup (JsMap.keys (record calls m)).
Proof.
  revert m. unfold apply_calls.
  induction calls as [|c calls IH]; intros m H; simpl; [exact H|].
  apply IH. now apply acceptSelector_NoDup.
Qed.

End Recorded.

(** [collectAll] as three rounds of recording. *)
Lemma collectAll_rounds esc defs json :
  collectAll esc defs json
  = apply_calls (acceptSelector defs Hc) (accepted_opt esc (highContrast json))
      (apply_calls (acceptSelector defs Light) (accepted_opt esc (light json))
         (apply_calls (acceptSelector defs Dark) (accepted esc (base json)) [])).
Proof.
  unfold collectAll, accepted_opt. rewrite collectSelectors_accepted.
  destruct (light json), (highContrast json);
    now rewrite ?collectSelectors_accepted.
Qed.

(** X6: for a defined icon, the selectors recorded in [definitionSelectors]
    are exactly the selectors that the document's associations name for it:
    those of the document itself as they are, then those of [light] behind
    ['.theia-light '], then those of [highContrast] behind ['.theia-hc '],
    each group in the order of collection. *)
Theorem definitionSelectors_content
    (esc : string -> option string) (defs : gmap string PluginIconDefinition)
    (json : PluginIconThemeDocument) (d : string) :
  is_Some (defs !! d) ->
  default [] (JsMap.get d (collectAll esc defs json))
  = selectors_of d (accepted esc (base json))
    ++ map (fun s => ".theia-light " +:+ s)
         (selectors_of d (accepted_opt esc (light json)))
    ++ map (fun s => ".theia-hc " +:+ s)
         (selectors_of d (accepted_opt esc (highContrast json))).
Proof.
  intros Hd. apply index_iconDefinitions_own in Hd.
  rewrite collectAll_rounds, !record_get by exact Hd.
  cbn [JsMap.get default app themed]. rewrite map_id, <- List.app_assoc.
  reflexivity.
Qed.

Lemma definitionSelectors_content_witness :
  default [] (JsMap.get "_folder_light"
                (collectAll no_CSS_escape two_tone_definitions two_tone_document))
  = [".theia-light .theia-plugin-folder-icon";
     ".theia-light .theia-plugin-root-folder-icon"].
Proof.
  rewrite (definitionSelectors_content no_CSS_escape two_tone_definitions
             two_tone_document "_folder_light").
  - reflexivity.
  - vm_compute. eauto.
Defined.

(** X7: [definitionSelectors] holds each definition id once, and its keys
    are exactly the ids that some association of the document, of [light] or
    of [highContrast] names and for which [iconDefinitions[id]] is defined:
    the keys of [iconDefinitions] and, beside them, the names every object
    inherits. *)
Theorem definitionSelectors_keys
    (esc : string -> option string) (defs : gmap string PluginIconDefinition)
    (json : PluginIconThemeDocument) :
  List.NoDup (JsMap.keys (collectAll esc defs json))
  /\ forall d,
       In d (JsMap.keys (collectAll esc defs json))
       <-> (is_Some (defs !! d) \/ In d Object_prototype)
           /\ exists selector,
                In (d, selector)
                  (accepted esc (base json) ++ accepted_opt esc (light json)
                     ++ accepted_opt esc (highContrast json)).
Proof.
  rewrite collectAll_rounds. split.
  - do 3 apply record_NoDup. constructor.
  - intros d.
    assert (Hindex : is_Some (index_iconDefinitions defs d)
                     <-> is_Some (defs !! d) \/ In d Object_prototype).
    { rewrite <- not_eq_None_Some, index_iconDefinitions_None.
      destruct (defs !! d) as [def|] eqn:E.
      - split; [intros _; left; eauto | intros _ [H _]; discriminate H].
      - split.
        + intros H. right.
          destruct (in_dec string_dec d Object_prototype) as [Hin|Hnot];
            [exact Hin | exfalso; apply H; now split].
        + intros [[x Hx]|Hin] [_ Hnot]; [discriminate Hx | contradiction]. }
    rewrite <- Hindex, !record_keys. cbn [JsMap.keys map In]. split.
    + intros [[[[]|[Hd [s Hs]]]|[Hd [s Hs]]]|[Hd [s Hs]]];
        (split; [exact Hd|]; exists s; rewrite !in_app_iff; tauto).
    + intros [Hd [s Hs]]. rewrite !in_app_iff in Hs.
      destruct Hs as [Hs|[Hs|Hs]]; eauto 8.
Qed.

Lemma filter_emitted_other {A} (f : string -> list A) ks d :
  ~ In d ks ->
  List.filter (fun r : string * A => String.eqb (fst r) d)
    (flat_map (fun k => map (fun x => (k, x)) (f k)) ks) = [].
Proof.
  induction ks as [|k ks IH]; intros Hd; simpl; [reflexivity|].
  rewrite List.filter_app, IH by (intros H; apply Hd; now right).
  rewrite app_nil_r.
  induction (f k) as [|x xs IHx]; simpl; [reflexivity|].
  destruct (String.eqb_spec k d) as [->|_]; [exfalso; apply Hd; now left | exact IHx].
Qed.

Lemma filter_emitted_same {A} (f : string -> list A) d :
  List.filter (fun r : string * A => String.eqb (fst r) d)
    (map (fun x => (d, x)) (f d))
  = map (fun x => (d, x)) (f d).
Proof.
  induction (f d) as [|x xs IH]; simpl; [reflexivity|].
  now rewrite String.eqb_refl, IH.
Qed.

Lemma filter_emitted {A} (f : string -> list A) ks d :
  List.NoDup ks -> In d ks ->
  List.filter (fun r : string * A => String.eqb (fst r) d)
    (flat_map (fun k => map (fun x => (k, x)) (f k)) ks)
  = map (fun x => (d, x)) (f d).
Proof.
  induction ks as [|k ks IH]; intros Hnd Hd; [destruct Hd|].
  apply List.NoDup_cons_iff in Hnd as [Hk Hnd]. simpl.
  rewrite List.filter_app. destruct Hd as [->|Hd].
  - rewrite filter_emitted_same, filter_emitted_other by exact Hk.
    now rewrite app_nil_r.
  - rewrite IH by assumption.
    replace (List.filter (fun r : string * A => String.eqb (fst r) d)
               (map (fun x => (k, x)) (f k))) with (@nil (string * A));
      [reflexivity|].
    symmetry. induction (f k) as [|x xs IHx]; simpl; [reflexivity|].
    destruct (String.eqb_spec k d) as [->|_]; [contradiction | exact IHx].
Qed.

Lemma rulesFor_length relativePath encodeURIComponent t defs m d :
  (length (rulesFor relativePath encodeURIComponent t defs m d) <= 2)%nat.
Proof.
  unfold rulesFor. destruct (JsMap.get d m); [|simpl; lia].
  destruct (index_iconDefinitions defs d); [|simpl; lia].
  rewrite length_app.
  destruct (Js.truthy (toCSSUrl _ _ _ _)), (_ || _)%bool; simpl; lia.
Qed.

(** X8: the style sheet has the rules of each icon definition once: the
    emitted rules that belong to a key of [definitionSelectors] are the
    rules of one pass of the loop, at most an image rule and a [::before]
    rule, however many associations name the definition. *)
Theorem emittedRules_once_per_definition
    (esc : string -> option string)
    (relativePath : string -> string -> string -> option string)
    (encodeURIComponent : string -> string)
    (t : PluginIconTheme) (defs : gmap string PluginIconDefinition)
    (json : PluginIconThemeDocument) (d : string) :
  let definitionSelectors := collectAll esc defs json in
  let rules := emittedRules relativePath encodeURIComponent t defs definitionSelectors in
  (In d (JsMap.keys definitionSelectors) ->
   rules_of d rules
   = map (fun rule => (d, rule))
       (rulesFor relativePath encodeURIComponent t defs definitionSelectors d))
  /\ (length (rules_of d rules) <= 2)%nat.
Proof.
  intros definitionSelectors rules.
  assert (Hnd : List.NoDup (JsMap.keys definitionSelectors)).
  { unfold definitionSelectors. rewrite collectAll_rounds.
    do 3 apply record_NoDup. constructor. }
  assert (Hin : In d (JsMap.keys definitionSelectors) ->
                rules_of d rules
                = map (fun rule => (d, rule))
                    (rulesFor relativePath encodeURIComponent t defs
                       definitionSelectors d)).
  { intros Hd. unfold rules_of, rules, emittedRules.
    now rewrite (filter_emitted
                   (rulesFor relativePath encodeURIComponent t defs definitionSelectors)
                   _ d Hnd Hd). }
  split; [exact Hin|].
  destruct (in_dec string_dec d (JsMap.keys definitionSelectors)) as [Hd|Hd].
  - rewrite (Hin Hd), length_map. apply rulesFor_length.
  - unfold rules_of, rules, emittedRules.
    rewrite (filter_emitted_other
               (rulesFor relativePath encodeURIComponent t defs definitionSelectors)
               _ d Hd).
    simpl. lia.
Qed.

Lemma emittedRules_once_per_definition_witness :
  rules_of "_ts"
    (emittedRules sample_relativePath sample_encodeURIComponent sample_theme
       sample_definitions
       (collectAll no_CSS_escape sample_definitions sample_document))
  = map (fun rule => ("_ts", rule))
      (rulesFor sample_relativePath sample_encodeURIComponent sample_theme
         sample_definitions
         (collectAll no_CSS_escape sample_definitions sample_document) "_ts").
Proof.
  apply (proj1 (emittedRules_once_per_definition no_CSS_escape sample_relativePath
                  sample_encodeURIComponent sample_theme sample_definitions
                  sample_document "_ts")).
  vm_compute. right. left. reflexivity.
Defined.

(** ** Failing and repeated loads *)

(** X9: a load that fails is final.  When the theme file cannot be read, or
    its content parses to [undefined], [load] rejects after one read and
    leaves the style sheet empty but defined; the next [load] fulfils at once
    without reading again, so the theme stays without rules. *)
Theorem load_failure_is_final
    (esc : string -> option string)
    (relativePath : string -> string -> string -> option string)
    (encodeURIComponent : string -> string)
    (resolveContent : string -> option string)
    (parse : string -> option PluginIconThemeDocument) (st : LoadState) :
  styleSheetContent (theme st) = None ->
  (resolveContent (uri (theme st)) = None
   \/ exists content, resolveContent (uri (theme st)) = Some content
                      /\ parse content = None) ->
  let load := load esc relativePath encodeURIComponent resolveContent parse in
  fst (load st) = Rejected
  /\ styleSheetContent (theme (snd (load st))) = Some ""
  /\ resolved (snd (load st)) = resolved st ++ [uri (theme st)]
  /\ load (snd (load st)) = (Fulfilled, snd (load st)).
Proof.
  intros Hnone Hfail ld. subst ld.
  assert (Hload : load esc relativePath encodeURIComponent resolveContent parse st
                  = (Rejected,
                     {| theme := set_styleSheetContent (theme st) (Some "");
                        resolved := resolved st ++ [uri (theme st)] |})).
  { unfold load. rewrite Hnone. cbn [uri set_styleSheetContent].
    destruct Hfail as [->|(content & -> & ->)]; reflexivity. }
  rewrite Hload. cbn [fst snd theme resolved styleSheetContent set_styleSheetContent].
  repeat split; reflexivity.
Qed.

Lemma load_failure_is_final_witness :
  fst (load no_CSS_escape sample_relativePath sample_encodeURIComponent
         failing_resolveContent sample_parse unloaded) = Rejected
  /\ styleSheetContent
       (theme (snd (load no_CSS_escape sample_relativePath sample_encodeURIComponent
                      failing_resolveContent sample_parse unloaded))) = Some "".
Proof.
  pose proof (load_failure_is_final no_CSS_escape sample_relativePath
                sample_encodeURIComponent failing_resolveContent sample_parse
                unloaded eq_refl (or_introl eq_refl)) as (H1 & H2 & _).
  split; [exact H1 | exact H2].
Defined.

(** X10: without [iconDefinitions] the document yields an empty style sheet:
    [load] fulfils after one read, and neither the fonts nor any association
    of the document adds a rule. *)
Theorem load_without_iconDefinitions
    (esc : string -> option string)
    (relativePath : string -> string -> string -> option string)
    (encodeURIComponent : string -> string)
    (resolveContent : string -> option string)
    (parse : string -> option PluginIconThemeDocument)
    (st : LoadState) (content : string) (json : PluginIconThemeDocument) :
  styleSheetContent (theme st) = None ->
  resolveContent (uri (theme st)) = Some content ->
  parse content = Some json ->
  iconDefinitions json = None ->
  load esc relativePath encodeURIComponent resolveContent parse st
  = (Fulfilled,
     {| theme := set_styleSheetContent (theme st) (Some "");
        resolved := resolved st ++ [uri (theme st)] |}).
Proof.
  intros Hnone Hcontent Hjson Hdefs. unfold load.
  rewrite Hnone. cbn [uri set_styleSheetContent].
  now rewrite Hcontent, Hjson, Hdefs.
Qed.

Lemma load_times_loaded ld n st :
  (forall st', styleSheetContent (theme st') <> None -> ld st' = (Fulfilled, st')) ->
  styleSheetContent (theme st) <> None ->
  load_times ld n st = st.
Proof.
  intros Hld. induction n as [|n IH]; intros Hst; simpl; [reflexivity|].
  rewrite (Hld st Hst). simpl. now apply IH.
Qed.

(** X11: however often [load] is called, the theme file is read once: any
    positive number of consecutive loads of an unloaded theme ends in the
    state of the first load, with one [resolveContent] call for the theme's
    [uri] on record. *)
Theorem load_reads_once
    (esc : string -> option string)
    (relativePath : string -> string -> string -> option string)
    (encodeURIComponent : string -> string)
    (resolveContent : string -> option string)
    (parse : string -> option PluginIconThemeDocument) (st : LoadState) (n : nat) :
  styleSheetContent (theme st) = None ->
  let load := load esc relativePath encodeURIComponent resolveContent parse in
  load_times load (S n) st = snd (load st)
  /\ resolved (load_times load (S n) st) = resolved st ++ [uri (theme st)].
Proof.
  intros Hnone ld. subst ld. cbn [load_times].
  rewrite load_times_loaded;
    [|intros st'; apply load_loaded | apply load_sets_styleSheetContent].
  split; [reflexivity|].
  unfold load. rewrite Hnone. cbn [uri set_styleSheetContent].
  destruct (resolveContent _) as [content|]; [|reflexivity].
  destruct (parse content) as [json|]; [|reflexivity].
  destruct (iconDefinitions json); reflexivity.
Qed.

Lemma load_reads_once_witness :
  resolved (load_times sample_load 5 unloaded) = ["file:///plugins/icons/sample.json"].
Proof.
  apply (proj2 (load_reads_once no_CSS_escape sample_relativePath
                  sample_encodeURIComponent sample_resolveContent sample_parse
                  unloaded 4 eq_refl)).
Defined.

Lemma load_without_iconDefinitions_witness :
  load no_CSS_escape sample_relativePath sample_encodeURIComponent
    sample_resolveContent (fun _ => Some fonts_only_document) unloaded
  = (Fulfilled,
     {| theme := set_styleSheetContent sample_theme (Some "");
        resolved := ["file:///plugins/icons/sample.json"] |}).
Proof.
  apply (load_without_iconDefinitions no_CSS_escape sample_relativePath
           sample_encodeURIComponent sample_resolveContent
           (fun _ => Some fonts_only_document) unloaded "sample.json"
           fonts_only_document);
    reflexivity.
Defined.

(** ** The [src] descriptor of a font *)

Section FontSrc.

Variable relativePath : string -> string -> string -> option string.
Variable encodeURIComponent : string -> string.
Variable t : PluginIconTheme.

Local Abbreviation descriptor := (src_descriptor relativePath encodeURIComponent t).

(** Appending one more descriptor, with the separator the loop inserts. *)
Local Abbreviation add_descriptor :=
  (fun (src d : string) => (if Js.truthy (Some src) then src +:+ ", " else src) +:+ d).

Lemma toCSSUrl_nonempty iconPath cssUrl :
  toCSSUrl relativePath encodeURIComponent t iconPath = Some cssUrl ->
  exists rest, cssUrl = String "u" rest.
Proof.
  unfold toCSSUrl. destruct iconPath as [p|]; [|discriminate].
  destruct (negb _); [discriminate|].
  destruct (relativePath _ _ p); [|discriminate].
  intros [= <-]. simpl. eauto.
Qed.

Lemma descriptor_nonempty srcLocation d :
  descriptor srcLocation = Some d -> exists rest, d = String "u" rest.
Proof.
  unfold src_descriptor. destruct srcLocation as [loc|]; [|discriminate].
  destruct (Js.truthy (src_path loc)); [|discriminate].
  destruct (toCSSUrl _ _ _ _) as [cssUrl|] eqn:E; [|discriminate].
  apply toCSSUrl_nonempty in E as [rest ->]. intros [= <-]. simpl. eauto.
Qed.

Lemma fontSrc_fold locations src :
  fold_left
    (fun src srcLocation =>
       match srcLocation with
       | Some loc =>
           if Js.truthy (src_path loc) then
             match toCSSUrl relativePath encodeURIComponent t (src_path loc) with
             | Some cssUrl =>
                 if Js.truthy (Some cssUrl) then
                   let src := if Js.truthy (Some src) then src +:+ ", " else src in
                   src +:+ cssUrl +:+ " format('" +:+ Js.show (src_format loc) +:+ "')"
                 else src
             | None => src
             end
           else src
       | None => src
       end)
    locations src
  = fold_left add_descriptor (omap descriptor locations) src.
Proof.
  revert src. induction locations as [|srcLocation locations IH]; intros src;
    [reflexivity|].
  cbn [fold_left omap list_omap]. rewrite IH. clear IH.
  unfold src_descriptor. destruct srcLocation as [loc|]; [|reflexivity].
  destruct (Js.truthy (src_path loc)); [|reflexivity].
  destruct (toCSSUrl _ _ _ _) as [cssUrl|] eqn:E; [|reflexivity].
  apply toCSSUrl_nonempty in E as [rest ->]. reflexivity.
Qed.

Lemma add_descriptors_nonempty c rest ds :
  fold_left add_descriptor ds (String c rest)
  = match ds with
    | [] => String c rest
    | _ => String c rest +:+ ", " +:+ Js.join ", " ds
    end.
Proof.
  revert c rest. induction ds as [|d ds IH]; intros c rest; [reflexivity|].
  cbn [fold_left]. change (Js.truthy (Some (String c rest))) with true. cbv iota.
  change ((String c rest +:+ ", ") +:+ d) with (String c ((rest +:+ ", ") +:+ d)).
  rewrite IH. destruct ds as [|d' ds'].
  - simpl. now rewrite append_assoc.
  - rewrite join_cons. simpl. now rewrite !append_assoc.
Qed.

Lemma add_descriptors_join ds :
  Forall (fun d => exists rest, d = String "u" rest) ds ->
  fold_left add_descriptor ds "" = Js.join ", " ds.
Proof.
  destruct ds as [|d ds]; [reflexivity|]. intros Hall.
  destruct (List.Forall_inv Hall) as [rest ->].
  cbn [fold_left]. change (Js.truthy (Some "")) with false. cbv iota.
  change ("" +:+ String "u" rest) with (String "u"%char rest).
  rewrite add_descriptors_nonempty. destruct ds; reflexivity.
Qed.

Lemma descriptors_nonempty locations :
  Forall (fun d => exists rest, d = String "u" rest) (omap descriptor locations).
Proof.
  apply List.Forall_forall. intros d Hd.
  apply list_elem_of_In, list_elem_of_omap in Hd as (srcLocation & _ & Hd).
  now apply descriptor_nonempty in Hd.
Qed.

End FontSrc.

(** X12: the [src] of a font is the list of the descriptors
    [url(...) format('...')] of its usable source locations, in order and
    separated by [', ']; locations that are null, have no path or give no
    URL leave no trace, not even a separator. *)
Theorem fontSrc_joins_usable_sources
    (relativePath : string -> string -> string -> option string)
    (encodeURIComponent : string -> string)
    (t : PluginIconTheme) (font : PluginFontDefinition) :
  fontSrc relativePath encodeURIComponent t font
  = Js.join ", "
      (omap (src_descriptor relativePath encodeURIComponent t)
         (default [] (font_src font))).
Proof.
  unfold fontSrc. destruct (font_src font) as [locations|]; [|reflexivity].
  rewrite fontSrc_fold. apply add_descriptors_join, descriptors_nonempty.
Qed.

Example fontSrc_two_sources :
  fontSrc sample_relativePath sample_encodeURIComponent sample_theme two_source_font
  = "url('hostedPlugin/vendor.icons/seti.woff') format('woff'), "
      +:+ "url('hostedPlugin/vendor.icons/seti.ttf') format('undefined')".
Proof. reflexivity. Qed.

(** ** Where the values of the label provider come from *)

Section Provenance.

Context {element : Type}.
Variable m : LabelProviderContribution.t element -> option (element -> option string).
Variable e : element.

Local Abbreviation rating := (fun c => LabelProviderContribution.canHandle c e).

Lemma first_value_sorted_cases l fallback :
  StronglySorted (fun c c' => rating c' <= rating c) l ->
  (exists c, In c l
             /\ LabelProvider.call (m c) e
                = Some (LabelProvider.first_value m e l fallback)
             /\ forall c', In c' l -> LabelProvider.call (m c') e <> None ->
                           rating c' <= rating c)
  \/ (LabelProvider.first_value m e l fallback = fallback
      /\ forall c, In c l -> LabelProvider.call (m c) e = None).
Proof.
  induction 1 as [|x l Hsorted IH Hall]; simpl.
  - right. split; [reflexivity | intros c []].
  - destruct (LabelProvider.call (m x) e) as [v|] eqn:Hx.
    + left. exists x. split; [now left|]. split; [exact Hx|].
      intros c' [<-|Hc'] _; [lia|].
      rewrite List.Forall_forall in Hall. now apply Hall.
    + destruct IH as [(c & Hc & Hv & Hmax)|[Hfb Hnone]].
      * left. exists c. split; [now right|]. split; [exact Hv|].
        intros c' [<-|Hc'] Hans; [congruence | now apply Hmax].
      * right. split; [exact Hfb|]. intros c [<-|Hc]; [exact Hx | now apply Hnone].
Qed.

Lemma first_value_provenance contributions fallback :
  best_answer m contributions e
    (LabelProvider.first_value m e (LabelProvider.findContribution contributions e)
       fallback)
  \/ (no_answer m contributions e
      /\ LabelProvider.first_value m e
           (LabelProvider.findContribution contributions e) fallback = fallback).
Proof.
  destruct (first_value_sorted_cases (LabelProvider.findContribution contributions e)
              fallback (findContribution_sorted contributions e))
    as [(c & Hc & Hv & Hmax)|[Hfb Hnone]].
  - left. exists c. apply findContribution_In in Hc as [Hc Hpos].
    repeat split; try assumption.
    intros c' Hc' Hpos' Hans. apply Hmax; [|exact Hans].
    apply findContribution_In. now split.
  - right. split; [|exact Hfb]. intros c Hc Hpos. apply Hnone.
    apply findContribution_In. now split.
Qed.

End Provenance.

(** X13: a value of the label provider is either the answer of a registered
    contribution that rates the element positively and is rated at least as
    high as every other contribution that answers, or it is the fallback and
    then no positively rated contribution answers; so for [getIcon],
    [getName] and [getLongName]. *)
Theorem label_value_is_best_answer_or_fallback {element : Type}
    (contributions : list (LabelProviderContribution.t element)) (e : element) :
  (best_answer LabelProviderContribution.getIcon contributions e
     (LabelProvider.getIcon contributions e)
   \/ (no_answer LabelProviderContribution.getIcon contributions e
       /\ LabelProvider.getIcon contributions e = ""))
  /\ (best_answer LabelProviderContribution.getName contributions e
        (LabelProvider.getName contributions e)
      \/ (no_answer LabelProviderContribution.getName contributions e
          /\ LabelProvider.getName contributions e = "<unknown>"))
  /\ (best_answer LabelProviderContribution.getLongName contributions e
        (LabelProvider.getLongName contributions e)
      \/ (no_answer LabelProviderContribution.getLongName contributions e
          /\ LabelProvider.getLongName contributions e = "")).
Proof. repeat split; apply first_value_provenance. Qed.

Lemma findContribution_declining {element : Type}
    (before after : list (LabelProviderContribution.t element))
    (c : LabelProviderContribution.t element) (e : element) :
  LabelProviderContribution.canHandle c e <= 0 ->
  LabelProvider.findContribution (before ++ c :: after) e
  = LabelProvider.findContribution (before ++ after) e.
Proof.
  intros Hc. unfold LabelProvider.findContribution, Prioritizeable.prioritizeAllSync,
    Prioritizeable.toPrioritizeableSync.
  rewrite !map_app, !List.filter_app. cbn [map List.filter].
  unfold Prioritizeable.isValid at 2. cbn [Prioritizeable.priority].
  replace (0 <? LabelProviderContribution.canHandle c e) with false
    by (symmetry; apply Z.ltb_ge; exact Hc).
  reflexivity.
Qed.

(** X14: a contribution whose [canHandle] result is zero or negative is
    never consulted: registering it anywhere among the contributions changes
    none of [getIcon], [getName] and [getLongName] for that element, whatever
    its own methods would return. *)
Theorem declining_contribution_is_ignored {element : Type}
    (before after : list (LabelProviderContribution.t element))
    (c : LabelProviderContribution.t element) (e : element) :
  LabelProviderContribution.canHandle c e <= 0 ->
  LabelProvider.getIcon (before ++ c :: after) e
  = LabelProvider.getIcon (before ++ after) e
  /\ LabelProvider.getName (before ++ c :: after) e
     = LabelProvider.getName (before ++ after) e
  /\ LabelProvider.getLongName (before ++ c :: after) e
     = LabelProvider.getLongName (before ++ after) e.
Proof.
  intros Hc. unfold LabelProvider.getIcon, LabelProvider.getName,
    LabelProvider.getLongName.
  now rewrite !(findContribution_declining before after c e Hc).
Qed.

Lemma declining_contribution_is_ignored_witness :
  LabelProvider.getName [sample_service; sample_default] plain_object
  = LabelProvider.getName [sample_service] plain_object.
Proof.
  apply (proj1 (proj2 (declining_contribution_is_ignored [sample_service] []
                         sample_default plain_object ltac:(vm_compute; discriminate)))).
Defined.

Lemma NoDup_map_injective {A B} (f : A -> B) (l : list A) x y :
  List.NoDup (map f l) -> In x l -> In y l -> f x = f y -> x = y.
Proof.
  induction l as [|a l IH]; intros Hnd Hx Hy Hf; [destruct Hx|].
  simpl in Hnd. apply List.NoDup_cons_iff in Hnd as [Ha Hnd].
  destruct Hx as [->|Hx], Hy as [->|Hy].
  - reflexivity.
  - exfalso. apply Ha. rewrite Hf. now apply in_map.
  - exfalso. apply Ha. rewrite <- Hf. now apply in_map.
  - now apply IH.
Qed.

(** X15: when the positive [canHandle] results for an element are pairwise
    different, the order of registration does not matter: any reordering of
    the contributions gives the same [getIcon], [getName] and
    [getLongName]. *)
Theorem registration_order_is_irrelevant_without_ties {element : Type}
    (contributions contributions' : list (LabelProviderContribution.t element))
    (e : element) :
  Permutation contributions contributions' ->
  List.NoDup
    (map (fun c => LabelProviderContribution.canHandle c e)
       (List.filter (fun c => 0 <? LabelProviderContribution.canHandle c e)
          contributions)) ->
  LabelProvider.getIcon contributions e = LabelProvider.getIcon contributions' e
  /\ LabelProvider.getName contributions e = LabelProvider.getName contributions' e
  /\ LabelProvider.getLongName contributions e
     = LabelProvider.getLongName contributions' e.
Proof.
  intros Hperm Hnd.
  assert (Hfilter :
            Permutation
              (List.filter (fun c => 0 <? LabelProviderContribution.canHandle c e)
                 contributions)
              (List.filter (fun c => 0 <? LabelProviderContribution.canHandle c e)
                 contributions')).
  { clear Hnd. induction Hperm; simpl.
    - reflexivity.
    - destruct (0 <? _); [now constructor | assumption].
    - destruct (0 <? LabelProviderContribution.canHandle y e),
        (0 <? LabelProviderContribution.canHandle x e);
        try reflexivity. apply perm_swap.
    - etransitivity; eassumption. }
  assert (Hsame : LabelProvider.findContribution contributions e
                  = LabelProvider.findContribution contributions' e).
  { apply (StronglySorted_unique_strong
             (fun c c' => LabelProviderContribution.canHandle c' e
                          <= LabelProviderContribution.canHandle c e)).
    - intros x1 x2 Hx1 Hx2 H12 H21.
      apply list_elem_of_In, (Permutation_in _ (findContribution_Permutation _ _))
        in Hx1.
      apply list_elem_of_In, (Permutation_in _ (findContribution_Permutation _ _)),
        (Permutation_in _ (Permutation_sym Hfilter)) in Hx2.
      apply (NoDup_map_injective _ _ x1 x2 Hnd Hx1 Hx2). lia.
    - apply findContribution_sorted.
    - apply findContribution_sorted.
    - now rewrite !findContribution_Permutation. }
  unfold LabelProvider.getIcon, LabelProvider.getName, LabelProvider.getLongName.
  now rewrite Hsame.
Qed.

Lemma registration_order_is_irrelevant_without_ties_witness :
  LabelProvider.getIcon [sample_default; sample_service] main_ts_uri
  = LabelProvider.getIcon [sample_service; sample_default] main_ts_uri.
Proof.
  apply (proj1 (registration_order_is_irrelevant_without_ties
                  [sample_default; sample_service] [sample_service; sample_default]
                  main_ts_uri (perm_swap _ _ _)
                  ltac:(vm_compute; repeat constructor; simpl; intuition discriminate))).
Defined.

(** ** [LabelProvider.affects] *)

Lemma some_contribution_affects_iff {element : Type}
    (aff : LabelProviderContribution.t element ->
           option (element -> DidChangeLabelEvent element -> bool))
    (e : element) (event : DidChangeLabelEvent element) found :
  some_contribution_affects aff e event found = true
  <-> exists c f, In c found /\ aff c = Some f /\ f e event = true.
Proof.
  induction found as [|c found IH]; simpl.
  - split; [discriminate | intros (c & f & [] & _)].
  - destruct (aff c) as [f|] eqn:Hc.
    + destruct (f e event) eqn:Hf.
      * split; [intros _; exists c, f; auto | reflexivity].
      * rewrite IH. split.
        -- intros (c' & f' & Hin & H1 & H2). exists c', f'. auto.
        -- intros (c' & f' & [<-|Hin] & H1 & H2); [congruence|].
           exists c', f'. auto.
    + rewrite IH. split.
      * intros (c' & f' & Hin & H1 & H2). exists c', f'. auto.
      * intros (c' & f' & [<-|Hin] & H1 & H2); [congruence|].
        exists c', f'. auto.
Qed.

(** X16: a label change event affects an element exactly when the event
    itself says so or some registered contribution that rates the element
    positively has an [affects] method that says so; contributions that
    decline the element are not asked, and the order of registration plays
    no part. *)
Theorem affects_iff_event_or_handling_contribution {element : Type}
    (contributions : list (LabelProviderContribution.t element))
    (aff : LabelProviderContribution.t element ->
           option (element -> DidChangeLabelEvent element -> bool))
    (e : element) (event : DidChangeLabelEvent element) :
  LabelProvider_affects contributions aff e event = true
  <-> event_affects event e = true
      \/ exists c f,
           In c contributions
           /\ 0 < LabelProviderContribution.canHandle c e
           /\ aff c = Some f
           /\ f e event = true.
Proof.
  unfold LabelProvider_affects. destruct (event_affects event e).
  - split; [now left | reflexivity].
  - rewrite some_contribution_affects_iff. split.
    + intros (c & f & Hin & H1 & H2). right. exists c, f.
      apply findContribution_In in Hin as [Hin Hpos]. auto.
    + intros [H|(c & f & Hin & Hpos & H1 & H2)]; [discriminate|].
      exists c, f. split; [|auto]. apply findContribution_In. auto.
Qed.

(** ** The default contribution for URIs *)

Lemma DefaultUri_getIcon_is_defined_aux
    (getClassWithColor : string -> option string) (uri : Element) :
  exists icon,
    LabelProvider.call
      (LabelProviderContribution.getIcon
         (DefaultUriLabelProviderContribution getClassWithColor)) uri = Some icon.
Proof.
  cbn [LabelProvider.call LabelProviderContribution.getIcon
         DefaultUriLabelProviderContribution].
  destruct (Js.truthy (getClassWithColor (displayName uri))) eqn:Hclass; cbn [negb].
  - destruct (getClassWithColor (displayName uri)) as [icon|]; [eauto | discriminate].
  - destruct (_ =? _); eauto.
Qed.

(** X17: the default contribution always gives a URI an icon, and never the
    empty string: the class of [file-icons-js] when there is a non-empty one,
    otherwise the file icon for a display name with a dot and the folder icon
    for one without. *)
Theorem DefaultUri_getIcon_is_defined
    (getClassWithColor : string -> option string) (uri : Element) :
  exists icon,
    LabelProvider.call
      (LabelProviderContribution.getIcon
         (DefaultUriLabelProviderContribution getClassWithColor)) uri = Some icon
    /\ icon <> ""
    /\ (Js.truthy (getClassWithColor (displayName uri)) = true ->
        getClassWithColor (displayName uri) = Some icon)
    /\ (Js.truthy (getClassWithColor (displayName uri)) = false ->
        (contains "."%char (displayName uri) -> icon = FILE_ICON)
        /\ (~ contains "."%char (displayName uri) -> icon = FOLDER_ICON)).
Proof.
  cbn [LabelProvider.call LabelProviderContribution.getIcon
         DefaultUriLabelProviderContribution].
  destruct (Js.truthy (getClassWithColor (displayName uri))) eqn:Hclass; cbn [negb].
  - destruct (getClassWithColor (displayName uri)) as [icon|]; [|discriminate].
    exists icon. split; [reflexivity|]. split.
    + intros ->. discriminate Hclass.
    + split; [reflexivity | discriminate].
  - destruct (Z.eqb_spec (Js.indexOf "."%char (displayName uri)) (-1)) as [Hidx|Hidx].
    + exists FOLDER_ICON. split; [reflexivity|]. split; [discriminate|].
      split; [discriminate|]. intros _. split; [|reflexivity].
      intros Hdot. now apply indexOf_absent in Hidx.
    + exists FILE_ICON. split; [reflexivity|]. split; [discriminate|].
      split; [discriminate|]. intros _. split; [reflexivity|].
      intros Hdot. now apply indexOf_absent in Hdot.
Qed.

(** X18: with the default contribution registered, a URI never gets a
    fallback: its icon, name and long name are each the answer of a
    contribution that handles it, the best rated among those that answer. *)
Theorem uri_is_always_answered
    (getClassWithColor : string -> option string)
    (contributions : list (LabelProviderContribution.t Element)) (uri : Element) :
  instanceof_URI uri = true ->
  In (DefaultUriLabelProviderContribution getClassWithColor) contributions ->
  best_answer LabelProviderContribution.getIcon contributions uri
    (LabelProvider.getIcon contributions uri)
  /\ best_answer LabelProviderContribution.getName contributions uri
       (LabelProvider.getName contributions uri)
  /\ best_answer LabelProviderContribution.getLongName contributions uri
       (LabelProvider.getLongName contributions uri).
Proof.
  intros Huri Hin.
  assert (Hpos : 0 < LabelProviderContribution.canHandle
                       (DefaultUriLabelProviderContribution getClassWithColor) uri).
  { cbn [LabelProviderContribution.canHandle DefaultUriLabelProviderContribution].
    rewrite Huri. lia. }
  split; [|split].
  - destruct (first_value_provenance LabelProviderContribution.getIcon uri
                contributions "") as [H|[Hnone _]]; [exact H|].
    specialize (Hnone _ Hin Hpos).
    destruct (DefaultUri_getIcon_is_defined_aux getClassWithColor uri) as [icon Hicon].
    congruence.
  - destruct (first_value_provenance LabelProviderContribution.getName uri
                contributions "<unknown>") as [H|[Hnone _]]; [exact H|].
    specialize (Hnone _ Hin Hpos). discriminate Hnone.
  - destruct (first_value_provenance LabelProviderContribution.getLongName uri
                contributions "") as [H|[Hnone _]]; [exact H|].
    specialize (Hnone _ Hin Hpos). discriminate Hnone.
Qed.

Lemma uri_is_always_answered_witness :
  best_answer LabelProviderContribution.getName [sample_default; sample_service]
    main_ts_uri "main.ts".
Proof.
  exact (proj1 (proj2 (uri_is_always_answered (fun _ => None)
                         [sample_default; sample_service] main_ts_uri
                         eq_refl (or_introl eq_refl)))).
Defined.

(** ** The plugin icon theme among the contributions *)

(** X19: while a plugin icon theme is selected, its icon wins for files: for
    a URI with scheme [file], a [FileStat] or a [FileStatNode], the label
    provider returns the classes of [PluginIconTheme.getIcon] whenever every
    other registered contribution rates the element below
    [Number.MAX_SAFE_INTEGER]. *)
Theorem plugin_theme_icon_wins
    (esc : string -> option string) (getName : Element -> string)
    (languageOf : string -> string) (t : PluginIconTheme)
    (contributions : list (LabelProviderContribution.t Element)) (element : Element) :
  let service :=
    PluginIconThemeService_contribution esc getName languageOf
      (Some (IsPluginIconTheme t)) in
  is_file_like element ->
  In service contributions ->
  (forall c, In c contributions ->
     c = service \/ LabelProviderContribution.canHandle c element < MAX_SAFE_INTEGER) ->
  LabelProvider.getIcon contributions element
  = theme_getIcon esc getName languageOf element.
Proof.
  intros service Hfile Hin Hothers.
  assert (Hrate : LabelProviderContribution.canHandle service element = MAX_SAFE_INTEGER).
  { cbn [service LabelProviderContribution.canHandle PluginIconThemeService_contribution].
    unfold PluginIconThemeService.canHandle.
    apply file_like_spec in Hfile. rewrite Hfile. reflexivity. }
  unfold LabelProvider.getIcon.
  apply first_value_highest with (c := service).
  - apply findContribution_sorted.
  - apply findContribution_In. split; [exact Hin|]. rewrite Hrate. reflexivity.
  - reflexivity.
  - intros c' Hc' Hle. apply findContribution_In in Hc' as [Hc' _].
    destruct (Hothers c' Hc') as [->|Hlt]; [now left|]. rewrite Hrate in Hle. lia.
Qed.

Lemma plugin_theme_icon_wins_witness :
  LabelProvider.getIcon [sample_default; sample_service] main_ts_uri
  = theme_getIcon no_CSS_escape (LabelProvider.getName [sample_default])
      (fun _ => "typescript") main_ts_uri.
Proof.
  apply (plugin_theme_icon_wins no_CSS_escape (LabelProvider.getName [sample_default])
           (fun _ => "typescript") sample_theme [sample_default; sample_service]
           main_ts_uri).
  - left. reflexivity.
  - right. left. reflexivity.
  - intros c [<-|[<-|[]]]; [right; reflexivity | left; reflexivity].
Defined.

(** ** The install button, clicked and rendered *)

(** X20: a second click on the install button does nothing: the first click
    sets [busy], so only one service call is made; a click never changes
    [installed] or [outdated], and it stops the propagation of the event
    only when the button was not busy. *)
Theorem install_button_double_click (s : VSCXInstallButton.State) :
  VSCXInstallButton.onClick (VSCXInstallButton.onClick s) = VSCXInstallButton.onClick s
  /\ VSCXInstallButton.installed (VSCXInstallButton.extension (VSCXInstallButton.onClick s))
     = VSCXInstallButton.installed (VSCXInstallButton.extension s)
  /\ VSCXInstallButton.outdated (VSCXInstallButton.extension (VSCXInstallButton.onClick s))
     = VSCXInstallButton.outdated (VSCXInstallButton.extension s)
  /\ VSCXInstallButton.propagationStopped (VSCXInstallButton.onClick s)
     = (VSCXInstallButton.propagationStopped s
        || negb (VSCXInstallButton.busy (VSCXInstallButton.extension s)))%bool.
Proof.
  destruct s as [[installed busy outdated] calls stopped].
  unfold VSCXInstallButton.onClick.
  destruct busy, installed; cbn; rewrite ?Bool.orb_false_r, ?Bool.orb_true_r;
    repeat split; reflexivity.
Qed.

(** X21: once clicked, the button renders as working: whatever the state
    before the click, [createButtons] for the extension after the click
    gives one button with the spinner as content, the class [working] and
    neither [installed] nor [outdated], under the key of its label. *)
Theorem install_button_renders_working_after_click (s : VSCXInstallButton.State) :
  VSCXInstallButton.createButtons (VSCXInstallButton.extension (VSCXInstallButton.onClick s))
  = [working_button (VSCXInstallButton.installed (VSCXInstallButton.extension s))].
Proof.
  destruct s as [[installed busy outdated] calls stopped].
  unfold VSCXInstallButton.onClick.
  destruct busy, installed, outdated; reflexivity.
Qed.

(** ** The classes of [PluginIconTheme.getIcon] *)

Lemma join_space_cons (c : string) (rest : list string) :
  rest <> [] -> Js.join " " (c :: rest) = c +:+ " " +:+ Js.join " " rest.
Proof. destruct rest; [congruence | reflexivity]. Qed.

Lemma theme_getIcon_kind
    (esc : string -> option string) (getName : Element -> string)
    (languageOf : string -> string) (element : Element) :
  exists kind rest,
    In kind kind_classes
    /\ theme_getIcon esc getName languageOf element = kind +:+ " " +:+ rest
    /\ (isWorkspaceRootNode element = true ->
        kind = if expanded element then rootFolderExpandedIcon else rootFolderIcon).
Proof.
  assert (Hfile : forall uri, exists rest,
             getFileIcon esc getName languageOf element uri
             = fileIcon +:+ " " +:+ rest).
  { intros uri. eexists. unfold getFileIcon. apply join_space_cons.
    unfold fileNameIcon. discriminate. }
  unfold theme_getIcon, getFolderIcon, kind_classes.
  destruct (isWorkspaceRootNode element).
  { destruct (expanded element); do 2 eexists;
      (split; [|split; [reflexivity | reflexivity]]); simpl; tauto. }
  destruct (isDirNode element).
  { destruct (expanded element); do 2 eexists;
      (split; [|split; [reflexivity | discriminate]]); simpl; tauto. }
  destruct (isFileStatNode element).
  { destruct (Hfile (fileStatUri element)) as [rest ->].
    do 2 eexists. split; [|split; [reflexivity | discriminate]]. simpl; tauto. }
  destruct (isFileStat element).
  { destruct (isDirectory element).
    - do 2 eexists. split; [|split; [reflexivity | discriminate]]. simpl; tauto.
    - destruct (Hfile (statUri element)) as [rest ->].
      do 2 eexists. split; [|split; [reflexivity | discriminate]]. simpl; tauto. }
  destruct (negb _).
  - do 2 eexists. split; [|split; [reflexivity | discriminate]]. simpl; tauto.
  - destruct (Hfile (uriString element)) as [rest ->].
    do 2 eexists. split; [|split; [reflexivity | discriminate]]. simpl; tauto.
Qed.

(** X22: the class list of every element starts with one of the five kind
    classes: the file class for what is shown as a file, a folder class for
    what is shown as a folder, a root-folder class for a workspace root. *)
Theorem theme_getIcon_starts_with_kind
    (esc : string -> option string) (getName : Element -> string)
    (languageOf : string -> string) (element : Element) :
  exists kind rest,
    In kind kind_classes
    /\ theme_getIcon esc getName languageOf element = kind +:+ " " +:+ rest
    /\ (isWorkspaceRootNode element = true ->
        kind = if expanded element then rootFolderExpandedIcon else rootFolderIcon).
Proof. apply theme_getIcon_kind. Qed.

(** ** Which definition a root-folder selector belongs to *)

Lemma append_length (a b : string) :
  String.length (a +:+ b) = (String.length a + String.length b)%nat.
Proof. induction a as [|c a IH]; simpl; [reflexivity | now rewrite IH]. Qed.

Lemma has_suffix_append p suffix : has_suffix suffix (p +:+ suffix) = true.
Proof.
  unfold has_suffix. rewrite append_length.
  replace (String.length suffix <=? String.length p + String.length suffix)%nat
    with true by (symmetry; apply Nat.leb_le; lia).
  replace (String.length p + String.length suffix - String.length suffix)%nat
    with (String.length p) by lia.
  rewrite drop_chars_append. apply String.eqb_refl.
Qed.

Lemma not_has_suffix p suffix s : has_suffix suffix s = false -> p +:+ suffix <> s.
Proof. intros H <-. rewrite has_suffix_append in H. discriminate H. Qed.

Lemma guarded_call_In v selector d selector' :
  In (d, selector') (guarded_call v selector)
  <-> v = Some d /\ d <> "" /\ selector' = selector.
Proof.
  unfold guarded_call. destruct v as [d'|].
  - destruct (String.eqb_spec d' "") as [->|Hne]; simpl.
    + split; [intros [] | intros ([= <-] & H & _); congruence].
    + split.
      * intros [[= -> ->]|[]]. auto.
      * intros ([= ->] & _ & ->). now left.
  - split; [intros [] | intros (H & _); discriminate H].
Qed.

Lemma object_calls_suffix o (prefix : string -> string) suffix d selector :
  In (d, selector) (object_calls o (fun k => prefix k +:+ suffix)) ->
  has_suffix suffix selector = true.
Proof.
  unfold object_calls. destruct o as [props|]; [|intros []].
  intros H. apply in_map_iff in H as ([k v] & [= _ <-] & _).
  apply has_suffix_append.
Qed.

Section RootSelectors.

Variable esc : string -> option string.
Variable a : PluginIconsAssociation.

(** A selector that ends with none of the suffixes of the loops of
    [collectSelectors] comes from one of the five guarded calls. *)
Lemma kind_selector_calls d selector :
  has_suffix ".theia-plugin-folder-icon" selector = false ->
  has_suffix ".theia-plugin-folder-expanded-icon" selector = false ->
  has_suffix ".theia-plugin-file-icon" selector = false ->
  In (d, selector) (accepted esc a) ->
  In (d, selector)
    (guarded_call (folder a) ("." +:+ folderIcon)
     ++ guarded_call (folderExpanded a) ("." +:+ folderExpandedIcon)
     ++ guarded_call (Js.or_else (rootFolder a) (folder a)) ("." +:+ rootFolderIcon)
     ++ guarded_call (Js.or_else (rootFolderExpanded a) (folderExpanded a))
          ("." +:+ rootFolderExpandedIcon)
     ++ guarded_call (file a) ("." +:+ fileIcon)).
Proof.
  intros Hfolder Hexpanded Hfile. rewrite accepted_calls. unfold selector_calls.
  rewrite !in_app_iff.
  intros [H|[H|[H|[H|[H|[H|[H|[H|[H|H]]]]]]]]]; try tauto; exfalso.
  - apply (object_calls_suffix _ (fun n => "." +:+ folderNameIcon esc n)
             ".theia-plugin-folder-icon") in H; congruence.
  - apply (object_calls_suffix _ (fun n => "." +:+ expandedFolderNameIcon esc n)
             ".theia-plugin-folder-expanded-icon") in H; congruence.
  - apply (object_calls_suffix _ (fun n => dotted (fileNameIcon esc n))
             ".theia-plugin-file-icon") in H; congruence.
  - apply (object_calls_suffix _ (fun e => dotted (fileExtensionIcon esc e))
             ".theia-plugin-file-icon") in H; congruence.
  - destruct (fileExtensions a); [|destruct H].
    apply (object_calls_suffix _ (fun l => "." +:+ languageIcon esc l)
             ".theia-plugin-file-icon") in H; congruence.
Qed.

End RootSelectors.

(** X23: the root-folder selector belongs to one definition only: the calls
    of [collectSelectors] contain ['.theia-plugin-root-folder-icon'] for the
    definition id [d] exactly when [d] is the non-empty value of
    [rootFolder || folder], and likewise the expanded root-folder selector
    for [rootFolderExpanded || folderExpanded]; so a [rootFolder] of its own
    keeps the folder's definition away from workspace roots, and no
    folder-name, file or language association can produce these selectors. *)
Theorem root_folder_selector_definition
    (esc : string -> option string) (a : PluginIconsAssociation) (d : string) :
  (In (d, ".theia-plugin-root-folder-icon") (accepted esc a)
   <-> Js.or_else (rootFolder a) (folder a) = Some d /\ d <> "")
  /\ (In (d, ".theia-plugin-root-folder-expanded-icon") (accepted esc a)
      <-> Js.or_else (rootFolderExpanded a) (folderExpanded a) = Some d /\ d <> "").
Proof.
  split; split.
  - intros H. apply kind_selector_calls in H; [|reflexivity..].
    rewrite !in_app_iff, !guarded_call_In in H.
    destruct H as [(_ & _ & H)|[(_ & _ & H)|[(H1 & H2 & _)|[(_ & _ & H)|(_ & _ & H)]]]];
      try discriminate H.
    now split.
  - intros [H1 H2]. rewrite accepted_calls. unfold selector_calls.
    do 2 (apply in_or_app; right). apply in_or_app; left.
    apply guarded_call_In. auto.
  - intros H. apply kind_selector_calls in H; [|reflexivity..].
    rewrite !in_app_iff, !guarded_call_In in H.
    destruct H as [(_ & _ & H)|[(_ & _ & H)|[(_ & _ & H)|[(H1 & H2 & _)|(_ & _ & H)]]]];
      try discriminate H.
    now split.
  - intros [H1 H2]. rewrite accepted_calls. unfold selector_calls.
    do 3 (apply in_or_app; right). apply in_or_app; left.
    apply guarded_call_In. auto.
Qed.

Lemma root_folder_selector_definition_witness :
  In ("_root", ".theia-plugin-root-folder-icon")
    (accepted no_CSS_escape root_folder_associations)
  /\ ~ In ("_folder", ".theia-plugin-root-folder-icon")
         (accepted no_CSS_escape root_folder_associations)
  /\ In ("_folder_open", ".theia-plugin-root-folder-expanded-icon")
       (accepted no_CSS_escape root_folder_associations).
Proof.
  split; [|split].
  - apply (proj1 (root_folder_selector_definition no_CSS_escape
                    root_folder_associations "_root")).
    split; [reflexivity | discriminate].
  - intros H.
    apply (proj1 (root_folder_selector_definition no_CSS_escape
                    root_folder_associations "_folder")) in H.
    destruct H as [H _]. discriminate H.
  - apply (proj2 (root_folder_selector_definition no_CSS_escape
                    root_folder_associations "_folder_open")).
    split; [reflexivity | discriminate].
Defined.

(** ** The service answers for what it handles *)

(** X24: what [PluginIconThemeService] claims to handle it gives an icon:
    whenever [canHandle] is positive, [getIcon] is defined, is the class
    list of the selected theme for the element and starts with a kind
    class. *)
Theorem service_gives_icon_for_what_it_handles
    (esc : string -> option string) (getName : Element -> string)
    (languageOf : string -> string)
    (current : option IconThemeDefinition) (element : Element) :
  0 < PluginIconThemeService.canHandle current element ->
  PluginIconThemeService.getIcon esc getName languageOf current element
  = Some (theme_getIcon esc getName languageOf element)
  /\ exists kind rest,
       In kind kind_classes
       /\ theme_getIcon esc getName languageOf element = kind +:+ " " +:+ rest.
Proof.
  intros Hpos. split.
  - unfold PluginIconThemeService.canHandle in Hpos.
    unfold PluginIconThemeService.getIcon.
    destruct current as [[t|other]|]; [reflexivity | |];
      simpl in Hpos; lia.
  - destruct (theme_getIcon_kind esc getName languageOf element)
      as (kind & rest & Hkind & Hicon & _).
    eauto.
Qed.

Lemma service_gives_icon_for_what_it_handles_witness :
  PluginIconThemeService.getIcon no_CSS_escape displayName_provider typescript_mode
    (Some (IsPluginIconTheme sample_theme)) main_ts_uri
  = Some (theme_getIcon no_CSS_escape displayName_provider typescript_mode main_ts_uri).
Proof.
  apply (proj1 (service_gives_icon_for_what_it_handles no_CSS_escape
                  displayName_provider typescript_mode
                  (Some (IsPluginIconTheme sample_theme)) main_ts_uri eq_refl)).
Defined.
